(** * codeagent-wrapper: prompt files and skill injection

    A shallow embedding of the prompt-file reader and the skill resolver
    of [codeagent-wrapper/internal/executor] (the same prompt-file code
    is duplicated in [internal/app/app.go]):

    - [ReadAgentPromptFile], [WrapTaskWithAgentPrompt],
    - [findSkillFile], [DetectProjectSkills],
    - [validSkillName], [ResolveSkillContent], [stripYAMLFrontmatter].

    Go strings are byte sequences, modelled as [list ascii]; [len] is the
    byte length.  Go's [int] is modelled as [Z]: every integer the code
    computes is a length, a budget or their difference, so nothing wraps.
    The operating system (home directory, working directory, [os.Stat],
    [os.ReadFile], [filepath.EvalSymlinks]) is a record of functions, and
    every call to it is recorded in a trace.  [logWarn] only writes to the
    logger and is left out. *)

From Stdlib Require Import ZArith Ascii String List Lia.
From stdpp Require Import base list gmap strings.

Local Open Scope Z_scope.

(** ** Go strings *)

Abbreviation str := (list ascii) (only parsing).

(** A literal: Rocq's string syntax has no escapes, so control characters
    are spliced in by name ([LF], [CR], ...). *)
Definition lit (s : string) : str := list_ascii_of_string s.

Definition byte (n : N) : ascii := ascii_of_N n.

Definition LF : ascii := byte 10.
Definition CR : ascii := byte 13.
Definition slash : ascii := byte 47.
Definition dot : ascii := byte 46.
Definition tilde : ascii := byte 126.
Definition backslash : ascii := byte 92.

Definition len (s : str) : Z := Z.of_nat (length s).

Definition len_list {A} (l : list A) : Z := Z.of_nat (length l).

Module strings.

(** [strings.HasPrefix(s, prefix)] *)
Fixpoint HasPrefix (s prefix : str) {struct prefix} : bool :=
  match prefix, s with
  | [], _ => true
  | _ :: _, [] => false
  | p :: prefix', c :: s' => bool_decide (c = p) && HasPrefix s' prefix'
  end.

(** [strings.HasSuffix(s, suffix)] *)
Definition HasSuffix (s suffix : str) : bool :=
  HasPrefix (reverse s) (reverse suffix).

(** [strings.Index(s, substr)]: the byte offset of the first instance of
    [substr] in [s], or -1. *)
Fixpoint index_from (i : Z) (s substr : str) : Z :=
  if HasPrefix s substr then i
  else match s with
       | [] => -1
       | _ :: s' => index_from (i + 1) s' substr
       end.

Definition Index (s substr : str) : Z := index_from 0 s substr.

(** [strings.ReplaceAll(s, old, new)] for a non-empty [old]: instances
    are replaced left to right and do not overlap.  [skip] counts the
    bytes of a matched instance that are still to be passed over. *)
Fixpoint replace_from (skip : nat) (s old new : str) : str :=
  match s with
  | [] => []
  | c :: s' =>
      match skip with
      | S k => replace_from k s' old new
      | O =>
          if HasPrefix s old
          then new ++ replace_from (length old - 1) s' old new
          else c :: replace_from 0 s' old new
      end
  end.

Definition ReplaceAll (s old new : str) : str := replace_from 0 s old new.

(** [strings.Join(elems, sep)] *)
Fixpoint Join (elems : list str) (sep : str) : str :=
  match elems with
  | [] => []
  | [e] => e
  | e :: rest => e ++ sep ++ Join rest sep
  end.

(** The encodings of the code points for which [unicode.IsSpace] holds:
    the six ASCII ones, U+0085, U+00A0, U+1680, U+2000..U+200A, U+2028,
    U+2029, U+202F, U+205F and U+3000. *)
Definition white_space : list str :=
  map (map byte)
    [ [9]; [10]; [11]; [12]; [13]; [32];
      [194; 133]; [194; 160];
      [225; 154; 128];
      [226; 128; 128]; [226; 128; 129]; [226; 128; 130]; [226; 128; 131];
      [226; 128; 132]; [226; 128; 133]; [226; 128; 134]; [226; 128; 135];
      [226; 128; 136]; [226; 128; 137]; [226; 128; 138];
      [226; 128; 168]; [226; 128; 169]; [226; 128; 175];
      [226; 129; 159];
      [227; 128; 128] ]%N.

(** Width in bytes of a white-space rune at the start (resp. the end) of
    [s]; 0 when there is none.  An invalid or non-space rune is never
    trimmed, and a white-space encoding starts with a lead byte, so
    decoding a rune and matching its encoding agree. *)
Definition leading_space (s : str) : nat :=
  match List.find (HasPrefix s) white_space with
  | Some w => length w
  | None => O
  end.

Definition trailing_space (s : str) : nat :=
  match List.find (HasSuffix s) white_space with
  | Some w => length w
  | None => O
  end.

Fixpoint trim_left (fuel : nat) (s : str) : str :=
  match fuel with
  | O => s
  | S fuel' =>
      match leading_space s with
      | O => s
      | w => trim_left fuel' (drop w s)
      end
  end.

Fixpoint trim_right (fuel : nat) (s : str) : str :=
  match fuel with
  | O => s
  | S fuel' =>
      match trailing_space s with
      | O => s
      | w => trim_right fuel' (take (length s - w) s)
      end
  end.

(** [strings.TrimSpace(s)]: every rune removes at least one byte, so
    [length s] rounds are enough. *)
Definition TrimSpace (s : str) : str :=
  let s1 := trim_left (length s) s in
  trim_right (length s1) s1.

(** [strings.TrimRight(s, cutset)] for an ASCII [cutset]. *)
Definition in_cutset (cutset : str) (c : ascii) : bool :=
  bool_decide (c ∈ cutset).

Fixpoint drop_while (f : ascii -> bool) (s : str) : str :=
  match s with
  | c :: s' => if f c then drop_while f s' else s
  | [] => []
  end.

Definition TrimRight (s cutset : str) : str :=
  reverse (drop_while (in_cutset cutset) (reverse s)).

End strings.

(** ** The executor's pure functions *)

(** [s[i:]] and [s[:i]] for an offset known to be within [s]. *)
Definition slice_from (s : str) (i : Z) : str := drop (Z.to_nat i) s.
Definition slice_to (s : str) (i : Z) : str := take (Z.to_nat i) s.

Definition WrapTaskWithAgentPrompt (prompt task : str) : str :=
  lit "<agent-prompt>" ++ [LF] ++ prompt ++ [LF] ++ lit "</agent-prompt>"
    ++ [LF; LF] ++ task.

Definition stripYAMLFrontmatter (s : str) : str :=
  let s := strings.ReplaceAll s [CR; LF] [LF] in
  if negb (strings.HasPrefix s (lit "---")) then s
  else
    let idx := strings.Index (slice_from s 3) (LF :: lit "---") in
    if idx <? 0 then s
    else
      let result := slice_from s (3 + idx + 4) in
      let result :=
        match result with
        | c :: result' => if bool_decide (c = LF) then result' else result
        | [] => result
        end in
      strings.TrimSpace result.

(** The condition under which [stripYAMLFrontmatter] removes a block: the
    text opens with [---] and a line break followed by [---] comes later. *)
Definition hasFrontmatter (s : str) : bool :=
  strings.HasPrefix s (lit "---")
  && (0 <=? strings.Index (slice_from s 3) (LF :: lit "---")).

(** [validSkillName = regexp.MustCompile(`^[a-zA-Z0-9_-]+$`)]: without the
    [m] flag [$] matches at the end of the text only, so [MatchString]
    holds exactly of the non-empty strings whose bytes are all in the
    class. *)
Definition in_range (lo hi : N) (c : ascii) : bool :=
  ((lo <=? N_of_ascii c) && (N_of_ascii c <=? hi))%N.

Definition name_char (c : ascii) : bool :=
  in_range 97 122 c || in_range 65 90 c || in_range 48 57 c
  || bool_decide (c = byte 95) || bool_decide (c = byte 45).

Definition validSkillName (s : str) : bool :=
  match s with
  | [] => false
  | _ :: _ => forallb name_char s
  end.

(** ** path/filepath on Unix

    Go works on a byte buffer; the functions below are the same functions
    stated on path elements. *)

Module filepath.

Definition Separator : ascii := slash.

(** The elements between separators: [split "a//b" = ["a"; ""; "b"]]. *)
Fixpoint split (s : str) : list str :=
  match s with
  | [] => [[]]
  | c :: s' =>
      if bool_decide (c = Separator) then [] :: split s'
      else match split s' with
           | e :: es => (c :: e) :: es
           | [] => [[c]]
           end
  end.

Definition IsAbs (path : str) : bool := strings.HasPrefix path [Separator].

Definition dotdot : str := [dot; dot].

(** One element read by [Clean]; [out] holds the elements written so far,
    the last one first.  An empty element and [.] are dropped; [..]
    removes the last real element, is kept in a relative path that has
    nothing left to remove, and is dropped at the root. *)
Definition clean_elem (rooted : bool) (out : list str) (e : str) : list str :=
  if bool_decide (e = []) || bool_decide (e = [dot]) then out
  else if bool_decide (e = dotdot) then
    match out with
    | last :: out' =>
        if bool_decide (last = dotdot) then e :: out else out'
    | [] => if rooted then out else [e]
    end
  else e :: out.

Definition Clean (path : str) : str :=
  if bool_decide (path = []) then [dot]
  else
    let rooted := IsAbs path in
    let out := reverse (fold_left (clean_elem rooted) (split path) []) in
    if rooted then Separator :: strings.Join out [Separator]
    else if bool_decide (out = []) then [dot]
    else strings.Join out [Separator].

(** [filepath.Join(elem...)]: leading empty elements are ignored, the rest
    is joined with separators and cleaned. *)
Fixpoint Join (elem : list str) : str :=
  match elem with
  | [] => []
  | e :: rest =>
      if bool_decide (e = []) then Join rest
      else Clean (strings.Join elem [Separator])
  end.

(** The elements [Rel] walks over: a cleaned path has no trailing
    separator except the root, whose only element is the empty one. *)
Definition elements (p : str) : list str :=
  let es := split p in
  match reverse es with
  | [] :: front => reverse front
  | _ => es
  end.

Fixpoint strip_common (b t : list str) : list str * list str :=
  match b, t with
  | x :: b', y :: t' =>
      if bool_decide (x = y) then strip_common b' t' else (b, t)
  | _, _ => (b, t)
  end.

(** [filepath.Rel(basepath, targpath)]; [None] is the error. *)
Definition Rel (basepath targpath : str) : option str :=
  let base := Clean basepath in
  let targ := Clean targpath in
  if bool_decide (targ = base) then Some [dot]
  else
    let base := if bool_decide (base = [dot]) then [] else base in
    if negb (bool_decide (IsAbs base = IsAbs targ)) then None
    else
      let '(b, t) := strip_common (elements base) (elements targ) in
      let up := replicate (length b) dotdot in
      match b, t with
      | e :: _, _ :: _ =>
          if bool_decide (e = dotdot) then None
          else Some (strings.Join (up ++ t) [Separator])
      | _, _ => Some (strings.Join (up ++ t) [Separator])
      end.

End filepath.

(** ** The operating system *)

Record OS := {
  os_home : option str;                (* os.UserHomeDir *)
  os_cwd : option str;                 (* os.Getwd *)
  os_stat : str -> bool;               (* os.Stat succeeds *)
  os_readFile : str -> option str;     (* os.ReadFile *)
  os_evalSymlinks : str -> option str  (* filepath.EvalSymlinks *)
}.

Inductive Call :=
| CallUserHomeDir
| CallGetwd
| CallStat (p : str)
| CallReadFile (p : str)
| CallEvalSymlinks (p : str).

(** A computation returns its value and the calls it made, in order. *)
Definition IO (A : Type) : Type := A * list Call.

Definition ret {A} (a : A) : IO A := (a, []).

Definition bind {A B} (m : IO A) (k : A -> IO B) : IO B :=
  let r := k (fst m) in (fst r, snd m ++ snd r).

Inductive error :=
| ErrHomeDir        (* os.UserHomeDir failed *)
| ErrGetwd          (* filepath.Abs failed *)
| ErrOutsideAllowed (* prompt file must be under ~/.claude, ... *)
| ErrReadFile.      (* os.ReadFile failed *)

(** Go's [(string, error)]: every error return of the code carries the
    empty string. *)
Inductive result (A : Type) :=
| Ok (a : A)
| Err (e : error).
Arguments Ok {A} a.
Arguments Err {A} e.

Definition bindE {A B} (m : IO (result A)) (k : A -> IO (result B))
  : IO (result B) :=
  bind m (fun r => match r with Ok a => k a | Err e => ret (Err e) end).

Notation "'let*' x := m 'in' k" := (bind m (fun x => k))
  (at level 10, x name, m at level 100, k at level 200).
Notation "'let?' x := m 'in' k" := (bindE m (fun x => k))
  (at level 10, x name, m at level 100, k at level 200).

Definition call {A} (c : Call) (a : A) : IO A := (a, [c]).

Module os.

Definition UserHomeDir (sys : OS) : IO (result str) :=
  call CallUserHomeDir
    (match os_home sys with Some h => Ok h | None => Err ErrHomeDir end).

Definition Getwd (sys : OS) : IO (result str) :=
  call CallGetwd
    (match os_cwd sys with Some d => Ok d | None => Err ErrGetwd end).

Definition Stat (sys : OS) (p : str) : IO bool :=
  call (CallStat p) (os_stat sys p).

Definition ReadFile (sys : OS) (p : str) : IO (result str) :=
  call (CallReadFile p)
    (match os_readFile sys p with Some d => Ok d | None => Err ErrReadFile end).

End os.

(** [filepath.Abs] and [filepath.EvalSymlinks] consult the system. *)
Definition Abs (sys : OS) (path : str) : IO (result str) :=
  if filepath.IsAbs path then ret (Ok (filepath.Clean path))
  else let? wd := os.Getwd sys in ret (Ok (filepath.Join [wd; path])).

Definition EvalSymlinks (sys : OS) (p : str) : IO (option str) :=
  call (CallEvalSymlinks p) (os_evalSymlinks sys p).

(** ** prompt files *)

(** The closure [isWithinDir] of [ReadAgentPromptFile]. *)
Definition isWithinDir (path dir : str) : bool :=
  match filepath.Rel dir path with
  | None => false
  | Some rel =>
      let rel := filepath.Clean rel in
      if bool_decide (rel = [dot]) then true
      else if bool_decide (rel = filepath.dotdot) then false
      else negb (strings.HasPrefix rel (filepath.dotdot ++ [filepath.Separator]))
  end.

(** [for _, dir := range dirs { if isWithinDir(p, dir) { ...; break } }] *)
Definition withinAny (p : str) (dirs : list str) : bool :=
  existsb (isWithinDir p) dirs.

(** [~], [~/...] and [~\...] are expanded with the home directory. *)
Definition needsHome (raw : str) : bool :=
  bool_decide (raw = [tilde])
  || strings.HasPrefix raw [tilde; slash]
  || strings.HasPrefix raw [tilde; backslash].

Definition expandHome (sys : OS) (raw : str) : IO (result str) :=
  if needsHome raw then
    let? home := os.UserHomeDir sys in
    ret (Ok (if bool_decide (raw = [tilde]) then home
             else home ++ slice_from raw 1))
  else ret (Ok raw).

Definition allowedRoots (home : str) : list str :=
  [ filepath.Clean (filepath.Join [home; lit ".claude"]);
    filepath.Clean (filepath.Join [home; lit ".codex"]);
    filepath.Clean (filepath.Join [home; lit ".codeagent"; lit "agents"]) ].

(** [for i := range allowedDirs]: an entry is made absolute when
    [filepath.Abs] succeeds and is left as it is otherwise. *)
Fixpoint absoluteDirs (sys : OS) (dirs : list str) : IO (list str) :=
  match dirs with
  | [] => ret []
  | d :: rest =>
      let* a := Abs sys d in
      let d' := match a with Ok p => filepath.Clean p | Err _ => d end in
      let* rest' := absoluteDirs sys rest in
      ret (d' :: rest')
  end.

(** [resolvedAllowed]: the allowed directories that resolve. *)
Fixpoint resolveDirs (sys : OS) (dirs : list str) : IO (list str) :=
  match dirs with
  | [] => ret []
  | d :: rest =>
      let* r := EvalSymlinks sys d in
      let* rest' := resolveDirs sys rest in
      ret (match r with
           | Some base => filepath.Clean base :: rest'
           | None => rest'
           end)
  end.

(** The check made when [allowOutsideClaudeDir] is false; [Ok tt] lets the
    read go ahead. *)
Definition checkRestricted (sys : OS) (absPath : str) (allowedDirs : list str)
  : IO (result unit) :=
  if negb (withinAny absPath allowedDirs) then ret (Err ErrOutsideAllowed)
  else
    let* resolved := EvalSymlinks sys absPath in
    match resolved with
    | None => ret (Ok tt)
    | Some resolvedPath =>
        let resolvedPath := filepath.Clean resolvedPath in
        let* resolvedAllowed := resolveDirs sys allowedDirs in
        if (0 <? len_list resolvedAllowed)
           && negb (withinAny resolvedPath resolvedAllowed)
        then ret (Err ErrOutsideAllowed)
        else ret (Ok tt)
    end.

Definition ReadAgentPromptFile (sys : OS) (path : str)
    (allowOutsideClaudeDir : bool) : IO (result str) :=
  let raw := strings.TrimSpace path in
  if bool_decide (raw = []) then ret (Ok [])
  else
    let? expanded := expandHome sys raw in
    let? absPath := Abs sys expanded in
    let absPath := filepath.Clean absPath in
    let* home := os.UserHomeDir sys in
    let? _ :=
      match home with
      | Err e => if negb allowOutsideClaudeDir then ret (Err e) else ret (Ok tt)
      | Ok home =>
          let* allowedDirs := absoluteDirs sys (allowedRoots home) in
          if negb allowOutsideClaudeDir
          then checkRestricted sys absPath allowedDirs
          else ret (Ok tt)
      end in
    let? data := os.ReadFile sys absPath in
    ret (Ok (strings.TrimRight data [CR; LF])).

(** ** skills *)

Record techEntry := {
  Files : list str;   (* any of these files -> this tech *)
  Skills : list str
}.

Definition techSkillMap : list techEntry :=
  [ {| Files := [lit "go.mod"; lit "go.sum"];
       Skills := [lit "golang-base-practices"] |};
    {| Files := [lit "Cargo.toml"];
       Skills := [lit "rust-best-practices"] |};
    {| Files := [lit "pyproject.toml"; lit "setup.py";
                 lit "requirements.txt"; lit "Pipfile"];
       Skills := [lit "python-best-practices"] |};
    {| Files := [lit "package.json"];
       Skills := [lit "vercel-react-best-practices"; lit "frontend-design"] |};
    {| Files := [lit "vue.config.js"; lit "vite.config.ts";
                 lit "nuxt.config.ts"];
       Skills := [lit "vue-web-app"] |} ].

Definition skillRoots (home : str) : list str :=
  [ filepath.Join [home; lit ".codex"; lit "skills"];
    filepath.Join [home; lit ".claude"; lit "skills"] ].

Definition skillPath (root skill : str) : str :=
  filepath.Join [root; skill; lit "SKILL.md"].

(** [for _, root := range roots]: the first root under which [SKILL.md]
    exists wins; the empty string means that there is none. *)
Fixpoint firstSkillFile (sys : OS) (roots : list str) (skill : str) : IO str :=
  match roots with
  | [] => ret []
  | root :: rest =>
      let path := skillPath root skill in
      let* found := os.Stat sys path in
      if found then ret path else firstSkillFile sys rest skill
  end.

Definition findSkillFile (sys : OS) (home skill : str) : IO str :=
  firstSkillFile sys (skillRoots home) skill.

(** The loop state of [DetectProjectSkills]: the slice [detected] and the
    map [seen]; a key that is absent reads as [false]. *)
Definition detectState : Type := list str * gmap (list ascii) bool.

Definition seenBefore (seen : gmap (list ascii) bool) (skill : str) : bool :=
  default false (seen !! skill).

(** [for _, skill := range entry.Skills] *)
Fixpoint detectSkills (sys : OS) (home : str) (skills : list str)
    (st : detectState) : IO detectState :=
  match skills with
  | [] => ret st
  | skill :: rest =>
      if seenBefore (snd st) skill then detectSkills sys home rest st
      else
        let* path := findSkillFile sys home skill in
        if negb (bool_decide (path = []))
        then detectSkills sys home rest
               (fst st ++ [skill], <[skill := true]> (snd st))
        else detectSkills sys home rest st
  end.

(** [for _, f := range entry.Files]: one matching file is enough. *)
Fixpoint detectFiles (sys : OS) (home workDir : str) (files skills : list str)
    (st : detectState) : IO detectState :=
  match files with
  | [] => ret st
  | f :: rest =>
      let* found := os.Stat sys (filepath.Join [workDir; f]) in
      if found then detectSkills sys home skills st
      else detectFiles sys home workDir rest skills st
  end.

(** [for _, entry := range techSkillMap] *)
Fixpoint detectEntries (sys : OS) (home workDir : str)
    (table : list techEntry) (st : detectState) : IO detectState :=
  match table with
  | [] => ret st
  | entry :: rest =>
      let* st' := detectFiles sys home workDir (Files entry) (Skills entry) st in
      detectEntries sys home workDir rest st'
  end.

Definition DetectProjectSkills (sys : OS) (workDir : str) : IO (list str) :=
  let* home := os.UserHomeDir sys in
  match home with
  | Err _ => ret []
  | Ok home =>
      let* st := detectEntries sys home workDir techSkillMap ([], ∅) in
      ret (fst st)
  end.

Definition defaultSkillBudget : Z := 16000.

Definition tagOverhead (name : str) : Z :=
  len (lit "<skill name=" ++ [byte 34; byte 34] ++ lit ">")
  + len name + len [LF] + len (LF :: lit "</skill>").

Definition skillBlock (name body : str) : str :=
  lit "<skill name=" ++ [byte 34] ++ name ++ [byte 34] ++ lit ">" ++ [LF]
    ++ body ++ [LF] ++ lit "</skill>".

(** A loop body either goes on to the next item ([continue], or the end
    of the body) or leaves the loop ([break]). *)
Inductive control (S : Type) :=
| Continue (st : S)
| Break (st : S).
Arguments Continue {S} st.
Arguments Break {S} st.

Fixpoint forRange {A S : Type} (body : A -> S -> IO (control S))
    (items : list A) (st : S) : IO S :=
  match items with
  | [] => ret st
  | x :: rest =>
      let* c := body x st in
      match c with
      | Continue st' => forRange body rest st'
      | Break st' => ret st'
      end
  end.

(** The loop variables of [ResolveSkillContent]: [sections] and
    [remaining]. *)
Definition resolveState : Type := list str * Z.

(** The body of [for _, name := range skills]. *)
Definition resolveBody (sys : OS) (home : str) (name : str)
    (st : resolveState) : IO (control resolveState) :=
  let name := strings.TrimSpace name in
  if bool_decide (name = []) then ret (Continue st)
  else if negb (validSkillName name) then ret (Continue st)
  else
    let* path := findSkillFile sys home name in
    if bool_decide (path = []) then ret (Continue st)
    else
      let* data := os.ReadFile sys path in
      match data with
      | Err _ => ret (Continue st)
      | Ok data =>
          if len data =? 0 then ret (Continue st)
          else
            let body := stripYAMLFrontmatter (strings.TrimSpace data) in
            let bodyBudget := snd st - tagOverhead name in
            if bodyBudget <=? 0 then ret (Break st)
            else
              let body :=
                if len body >? bodyBudget then slice_to body bodyBudget
                else body in
              let remaining := snd st - (len body + tagOverhead name) in
              let sections := fst st ++ [skillBlock name body] in
              if remaining <=? 0 then ret (Break (sections, remaining))
              else ret (Continue (sections, remaining))
      end.

Definition resolveLoop (sys : OS) (home : str) (skills : list str)
    (sections : list str) (remaining : Z) : IO (list str) :=
  let* st := forRange (resolveBody sys home) skills (sections, remaining) in
  ret (fst st).

(** The blocks [ResolveSkillContent] joins: its slice [sections]. *)
Definition resolveSections (sys : OS) (skills : list str) (maxBudget : Z)
  : IO (list str) :=
  let* home := os.UserHomeDir sys in
  match home with
  | Err _ => ret []
  | Ok home =>
      let maxBudget :=
        if maxBudget <=? 0 then defaultSkillBudget else maxBudget in
      resolveLoop sys home skills [] maxBudget
  end.

Definition ResolveSkillContent (sys : OS) (skills : list str) (maxBudget : Z)
  : IO str :=
  let* sections := resolveSections sys skills maxBudget in
  ret (if len_list sections =? 0 then []
       else strings.Join sections [LF; LF]).

(** ** Notions used in the statements *)

(** The template of the specification:
    [<agent-prompt>{file-contents}</agent-prompt>\n\n{body}]. *)
Definition promptTemplate (contents body : str) : str :=
  lit "<agent-prompt>" ++ contents ++ lit "</agent-prompt>" ++ [LF; LF] ++ body.

(** A path element that [Clean] keeps: not empty, without a separator,
    and neither [.] nor [..]. *)
Definition normalElem (e : str) : Prop :=
  e <> [] /\ (filepath.Separator ∉ e) /\ e <> [dot] /\ e <> filepath.dotdot.

(** The absolute path with the given elements: [/e1/e2/.../en]. *)
Definition rootedPath (es : list str) : str :=
  filepath.Separator :: strings.Join es [filepath.Separator].

(** The elements of a relative path that goes up [n] times and then down
    through [t]. *)
Definition upDown (n : nat) (t : list str) : list str :=
  replicate n filepath.dotdot ++ t.

(** A text made of white space only. *)
Inductive onlySpace : str -> Prop :=
| onlySpace_nil : onlySpace []
| onlySpace_app (w s : str) :
    w ∈ strings.white_space -> onlySpace s -> onlySpace (w ++ s).

(** The steps of [ReadAgentPromptFile] between the trimming of the
    argument and the read: the cleaned absolute path, once the checks have
    passed. *)
Definition checkedPath (sys : OS) (raw : str) (allowOutsideClaudeDir : bool)
  : IO (result str) :=
  let? expanded := expandHome sys raw in
  let? absPath := Abs sys expanded in
  let absPath := filepath.Clean absPath in
  let* home := os.UserHomeDir sys in
  let? _ :=
    match home with
    | Err e => if negb allowOutsideClaudeDir then ret (Err e) else ret (Ok tt)
    | Ok home =>
        let* allowedDirs := absoluteDirs sys (allowedRoots home) in
        if negb allowOutsideClaudeDir
        then checkRestricted sys absPath allowedDirs
        else ret (Ok tt)
    end in
  ret (Ok absPath).

(** The cleaned absolute form of a path argument, and the allowed
    directories, as [ReadAgentPromptFile] computes them. *)
Definition promptAbsPath (sys : OS) (path : str) : result str :=
  fst (let? expanded := expandHome sys (strings.TrimSpace path) in
       let? absPath := Abs sys expanded in
       ret (Ok (filepath.Clean absPath))).

Definition promptAllowedDirs (sys : OS) (home : str) : list str :=
  fst (absoluteDirs sys (allowedRoots home)).

(** The path resolves, at least one allowed directory resolves, and the
    resolved path is in none of the resolved directories. *)
Definition escapesBySymlink (sys : OS) (absPath : str) (dirs : list str)
  : bool :=
  match os_evalSymlinks sys absPath with
  | None => false
  | Some resolved =>
      let resolvedAllowed := fst (resolveDirs sys dirs) in
      (0 <? len_list resolvedAllowed)
      && negb (withinAny (filepath.Clean resolved) resolvedAllowed)
  end.

Definition isRead (c : Call) : bool :=
  match c with CallReadFile _ => true | _ => false end.

Definition noRead (calls : list Call) : Prop :=
  Forall (fun c => isRead c = false) calls.

(** [~/.codex/skills/{name}/SKILL.md] and [~/.claude/skills/{name}/SKILL.md]
    as [findSkillFile] builds them. *)
Definition codexSkillFile (home name : str) : str :=
  skillPath (filepath.Join [home; lit ".codex"; lit "skills"]) name.

Definition claudeSkillFile (home name : str) : str :=
  skillPath (filepath.Join [home; lit ".claude"; lit "skills"]) name.

(** A skill is installed when one of the two files exists. *)
Definition installed (sys : OS) (home name : str) : Prop :=
  os_stat sys (codexSkillFile home name) = true
  \/ os_stat sys (claudeSkillFile home name) = true.

(** What the loops of [DetectProjectSkills] keep true of [detected] and
    [seen]. *)
Definition detect_inv (sys : OS) (home : str) (st : detectState) : Prop :=
  NoDup (fst st)
  /\ (forall s, s ∈ fst st -> seenBefore (snd st) s = true)
  /\ (forall s, s ∈ fst st -> installed sys home s).

(** The calls one round of [ResolveSkillContent] can make for a name:
    [os.Stat] on its two candidate files and [os.ReadFile] on one of
    them. *)
Definition skillCalls (home name : str) : list Call :=
  [ CallStat (codexSkillFile home name); CallStat (claudeSkillFile home name);
    CallReadFile (codexSkillFile home name);
    CallReadFile (claudeSkillFile home name) ].

(** The requested skills that can be loaded, in the order requested, each
    with its trimmed name and its stripped body. *)
Definition loadSkill (sys : OS) (home name : str) : option (str * str) :=
  let name := strings.TrimSpace name in
  if validSkillName name then
    let path := fst (findSkillFile sys home name) in
    if bool_decide (path = []) then None
    else match os_readFile sys path with
         | Some data =>
             if len data =? 0 then None
             else Some (name, stripYAMLFrontmatter (strings.TrimSpace data))
         | None => None
         end
  else None.

(** The budget rule in the words of the specification.  For each skill
    the wrapping overhead is subtracted from what remains; a body larger
    than the room left is cut to the room; a skill for which no room is
    left ends the list. *)
Definition fitBody (room : Z) (body : str) : str :=
  if len body >? room then slice_to body room else body.

Fixpoint budgetBlocks (loaded : list (str * str)) (remaining : Z) : list str :=
  match loaded with
  | [] => []
  | (name, body) :: rest =>
      let room := remaining - tagOverhead name in
      if room <=? 0 then []
      else
        let body := fitBody room body in
        skillBlock name body
          :: (if room - len body <=? 0 then []
              else budgetBlocks rest (room - len body))
  end.

(** The step of the budget rule for one loaded skill, on the loop
    variables of [ResolveSkillContent]. *)
Definition budgetStep (name body : str) (st : resolveState)
  : control resolveState :=
  let room := snd st - tagOverhead name in
  if room <=? 0 then Break st
  else
    let b := fitBody room body in
    let st' := (fst st ++ [skillBlock name b], room - len b) in
    if snd st' <=? 0 then Break st' else Continue st'.

Fixpoint totalLen (blocks : list str) : Z :=
  match blocks with
  | [] => 0
  | b :: rest => len b + totalLen rest
  end.

(** ** File systems and inputs of the examples *)

(** A small file system: regular files with their contents, directories,
    and symbolic links with their targets, each under its absolute path.
    A path that is none of them does not exist.  A link stands for the
    whole path that names it and its target is an absolute path; the
    trees of the examples have no link among the directories on the way
    to a file. *)
Record tree := {
  t_files : list (str * str);
  t_dirs : list str;
  t_links : list (str * str)
}.

Fixpoint assoc (k : str) (l : list (str * str)) : option str :=
  match l with
  | [] => None
  | (k', v) :: l' => if bool_decide (k = k') then Some v else assoc k l'
  end.

(** Where a path is looked up: a relative path starts at the working
    directory. *)
Definition located (cwd : option str) (p : str) : str :=
  if filepath.IsAbs p then p
  else match cwd with
       | Some d => filepath.Join [d; p]
       | None => p
       end.

Definition present (t : tree) (p : str) : bool :=
  bool_decide (is_Some (assoc p (t_files t))) || bool_decide (p ∈ t_dirs t).

(** The file or directory a path leads to.  Links are followed, at most
    [fuel] times; a link whose target does not exist, or a chain of links
    that does not end, leads nowhere. *)
Fixpoint follow (t : tree) (fuel : nat) (p : str) : option str :=
  match assoc p (t_links t) with
  | Some target =>
      match fuel with
      | O => None
      | S fuel => follow t fuel target
      end
  | None => if present t p then Some p else None
  end.

(** [os.Stat] and [os.ReadFile] follow links; the empty path names
    nothing.  [filepath.EvalSymlinks] returns the path itself when no link
    is involved, and where the links lead otherwise. *)
Definition resolved (cwd : option str) (t : tree) (p : str) : option str :=
  if bool_decide (p = []) then None
  else follow t (length (t_links t)) (located cwd p).

Definition mkOS (home cwd : option str) (t : tree) : OS := {|
  os_home := home;
  os_cwd := cwd;
  os_stat p := bool_decide (is_Some (resolved cwd t p));
  os_readFile p :=
    match resolved cwd t p with
    | Some q => assoc q (t_files t)
    | None => None
    end;
  os_evalSymlinks p :=
    match resolved cwd t p with
    | Some q =>
        if bool_decide (is_Some (assoc (located cwd p) (t_links t)))
        then Some q else Some p
    | None => None
    end
|}.

(** The home directory of the examples, with a prompt file in [~/.claude],
    a file outside, and a symbolic link in [~/.claude] that points to it. *)
Definition demoTree : tree := {|
  t_files :=
    [ (lit "/home/u/.claude/prompt.md", lit "OK" ++ [LF]);
      (lit "/etc/secret", lit "SECRET" ++ [LF]);
      (lit "/home/u/prompt.md", lit "NO" ++ [LF]) ];
  t_dirs := [ lit "/home/u"; lit "/home/u/.claude"; lit "/etc" ];
  t_links := [ (lit "/home/u/.claude/link.md", lit "/etc/secret") ]
|}.

Definition demoOS : OS :=
  mkOS (Some (lit "/home/u")) (Some (lit "/work")) demoTree.

(** A home directory with skills installed, and a project in [/work]. *)
Definition skillsTree : tree := {|
  t_files :=
    [ (lit "/home/u/.codex/skills/dup-skill/SKILL.md",
       lit "# Codex Version" ++ [LF] ++ lit "Use codex copy.");
      (lit "/home/u/.claude/skills/dup-skill/SKILL.md",
       lit "# Claude Version" ++ [LF] ++ lit "Use claude copy.");
      (lit "/home/u/.codex/skills/big-skill/SKILL.md",
       lit "---" ++ [LF] ++ lit "name: big" ++ [LF] ++ lit "---" ++ [LF; LF]
         ++ replicate 500 (byte 120));
      (lit "/home/u/.claude/skills/golang-base-practices/SKILL.md",
       lit "# Go");
      (lit "/home/u/.codex/skills/frontend-design/SKILL.md",
       lit "# frontend" ++ [LF]);
      (lit "/work/go.mod", lit "module test");
      (lit "/work/go.sum", []);
      (lit "/work/package.json", lit "{}") ];
  t_dirs := [ lit "/home/u"; lit "/work"; lit "/empty" ];
  t_links := []
|}.

Definition skillsOS : OS :=
  mkOS (Some (lit "/home/u")) (Some (lit "/work")) skillsTree.

Definition homelessOS : OS := mkOS None (Some (lit "/work")) skillsTree.

(** [---\na\n---\n---\nb\n---\nc]: one front-matter block after another. *)
Definition twoBlocks : str :=
  lit "---" ++ [LF] ++ lit "a" ++ [LF] ++ lit "---" ++ [LF]
    ++ lit "---" ++ [LF] ++ lit "b" ++ [LF] ++ lit "---" ++ [LF] ++ lit "c".

(** ** Notions used in the further properties *)

(** A call that consults the environment only: the home directory or the
    working directory. *)
Definition isEnv (c : Call) : bool :=
  match c with
  | CallUserHomeDir | CallGetwd => true
  | _ => false
  end.

(** A text that neither starts nor ends with a white-space rune. *)
Definition trimmed (s : str) : Prop :=
  strings.leading_space s = O /\ strings.trailing_space s = O.

(** The block of a loaded skill with its whole body. *)
Definition fullBlock (skill : str * str) : str :=
  skillBlock (fst skill) (snd skill).

(** One of the fingerprint files of a table entry exists in [workDir]. *)
Definition fingerprint (sys : OS) (workDir : str) (entry : techEntry) : Prop :=
  exists f, f ∈ Files entry /\ os_stat sys (filepath.Join [workDir; f]) = true.

(** What the loops of [DetectProjectSkills] establish, from a state [st0]
    and over the skills [names] that they go through: [seen] marks the
    detected names, the detected names are those of [st0] and the
    installed ones among [names] that [ok] lets through, and they are
    appended in the order of [names]. *)
Definition detect_post (sys : OS) (home : str) (ok : Prop) (names : list str)
    (st0 st : detectState) : Prop :=
  (forall s, seenBefore (snd st) s = true <-> s ∈ fst st)
  /\ (forall s, s ∈ fst st <->
        s ∈ fst st0 \/ (ok /\ s ∈ names /\ installed sys home s))
  /\ exists extra, fst st = fst st0 ++ extra /\ extra `sublist_of` names.

(** The skills of the table, in its order. *)
Definition tableSkills (table : list techEntry) : list str :=
  concat (map Skills table).

(** ** Tactics *)

(** Refutes a decidable statement about concrete data by evaluating its
    decision procedure. *)
Ltac refute_by_computation H :=
  apply (bool_decide_pack _) in H; vm_compute in H; exact H.

(** Lemmas stating that a computation makes no [os.ReadFile] call. *)
Create HintDb noread.

(** * Properties *)

(** ** Strings *)

Section StringFacts.

Implicit Types s t p : list ascii.

Lemma len_app s t : len (s ++ t) = len s + len t.
Proof. unfold len. rewrite length_app. lia. Qed.

Lemma len_nonneg s : 0 <= len s.
Proof. unfold len. lia. Qed.

Lemma HasPrefix_prefix s p : strings.HasPrefix s p = true <-> p `prefix_of` s.
Proof.
  revert s. induction p as [|a p IH]; intros s; simpl.
  - split; [intros _; apply prefix_nil | reflexivity].
  - destruct s as [|c s].
    + split; [done | intros H; by apply prefix_nil_inv in H].
    + rewrite andb_true_iff, bool_decide_eq_true, IH. split.
      * intros [-> H]. by apply prefix_cons.
      * intros H. split.
        -- symmetry. by apply prefix_cons_inv_1 in H.
        -- by apply prefix_cons_inv_2 in H.
Qed.

Lemma HasPrefix_app s t : strings.HasPrefix (s ++ t) s = true.
Proof. apply HasPrefix_prefix. by apply prefix_app_r. Qed.

Lemma HasPrefix_length s p :
  strings.HasPrefix s p = true -> (length p <= length s)%nat.
Proof. intros H. apply HasPrefix_prefix in H. by apply prefix_length. Qed.

(** [Index] is -1 or an offset into [s]. *)
Lemma index_from_shift i s p :
  strings.index_from i s p =
    if strings.Index s p <? 0 then -1 else i + strings.Index s p.
Proof.
  unfold strings.Index. revert i. induction s as [|c s IH]; intros i; simpl.
  - destruct (strings.HasPrefix [] p); simpl; lia.
  - destruct (strings.HasPrefix (c :: s) p); simpl; [lia|].
    rewrite (IH (i + 1)), (IH (0 + 1)).
    destruct (strings.index_from 0 s p <? 0) eqn:E; simpl; [done|].
    apply Z.ltb_ge in E.
    destruct (0 + 1 + strings.index_from 0 s p <? 0) eqn:E'; [|lia].
    apply Z.ltb_lt in E'. lia.
Qed.

Lemma Index_range s p :
  strings.Index s p = -1 \/ 0 <= strings.Index s p <= len s.
Proof.
  induction s as [|c s IH]; unfold strings.Index; simpl.
  - destruct (strings.HasPrefix [] p); unfold len; simpl; lia.
  - destruct (strings.HasPrefix (c :: s) p); [unfold len; simpl; lia|].
    rewrite index_from_shift.
    destruct (strings.Index s p <? 0) eqn:E; [by left|].
    apply Z.ltb_ge in E. right. unfold len in *. simpl length. lia.
Qed.

Lemma Index_cons c s p :
  strings.Index (c :: s) p =
    if strings.HasPrefix (c :: s) p then 0
    else if strings.Index s p <? 0 then -1 else 1 + strings.Index s p.
Proof.
  unfold strings.Index at 1. simpl.
  destruct (strings.HasPrefix (c :: s) p); [done|].
  by rewrite index_from_shift.
Qed.

End StringFacts.

(** ** [strings.ReplaceAll(s, "\r\n", "\n")] *)

Section ReplaceCRLF.

Implicit Types s : list ascii.

Let crlf : list ascii := [CR; LF].

Lemma replace_crlf_hit s :
  strings.ReplaceAll (CR :: LF :: s) crlf [LF] = LF :: strings.ReplaceAll s crlf [LF].
Proof. reflexivity. Qed.

Lemma replace_crlf_miss c s :
  strings.HasPrefix (c :: s) crlf = false ->
  strings.ReplaceAll (c :: s) crlf [LF] = c :: strings.ReplaceAll s crlf [LF].
Proof. unfold strings.ReplaceAll. simpl. intros ->. reflexivity. Qed.

(** A text is either empty, starts with CR LF, or starts with a byte that
    does not open a CR LF pair. *)
Lemma crlf_cases s :
  s = [] \/ (exists s', s = CR :: LF :: s')
  \/ (exists c s', s = c :: s' /\ strings.HasPrefix s crlf = false).
Proof.
  destruct s as [|c s]; [by left|]. right.
  destruct (strings.HasPrefix (c :: s) crlf) eqn:E.
  - left. apply HasPrefix_prefix in E. destruct E as [k E].
    simpl in E. injection E as -> ->. by exists k.
  - right. by exists c, s.
Qed.

(** Induction two bytes at a time, as [ReplaceAll] walks the text. *)
Lemma crlf_ind (P : list ascii -> Prop) :
  P [] ->
  (forall s, P s -> P (CR :: LF :: s)) ->
  (forall c s, strings.HasPrefix (c :: s) crlf = false -> P s -> P (c :: s)) ->
  forall s, P s.
Proof.
  intros Hnil Hhit Hmiss s.
  assert (H : P s /\ forall c, P (c :: s)); [|by destruct H].
  induction s as [|b s [IH1 IH2]].
  - split; [done|]. intros c. apply Hmiss; [|done].
    simpl. apply andb_false_r.
  - split; [apply IH2|]. intros c.
    destruct (crlf_cases (c :: b :: s)) as [?|[[s' E]|(c' & s' & E & Hm)]].
    + done.
    + injection E as -> -> ->. by apply Hhit.
    + apply Hmiss; [done|]. apply IH2.
Qed.

Lemma replace_crlf_length s :
  (length (strings.ReplaceAll s crlf [LF]) <= length s)%nat.
Proof.
  induction s as [| s IH | c s Hm IH] using crlf_ind.
  - done.
  - rewrite replace_crlf_hit. simpl. lia.
  - rewrite replace_crlf_miss by done. simpl. lia.
Qed.

Lemma replace_crlf_id s :
  strings.Index s crlf < 0 -> strings.ReplaceAll s crlf [LF] = s.
Proof.
  induction s as [| s IH | c s Hm IH] using crlf_ind; intros H.
  - done.
  - exfalso. rewrite Index_cons in H.
    change (strings.HasPrefix (CR :: LF :: s) crlf) with true in H. lia.
  - rewrite replace_crlf_miss by done. f_equal. apply IH.
    rewrite Index_cons, Hm in H.
    destruct (strings.Index s crlf <? 0) eqn:E; [by apply Z.ltb_lt in E | lia].
Qed.

Lemma replace_crlf_shorter s :
  0 <= strings.Index s crlf ->
  (length (strings.ReplaceAll s crlf [LF]) < length s)%nat.
Proof.
  induction s as [| s IH | c s Hm IH] using crlf_ind; intros H.
  - by vm_compute in H.
  - rewrite replace_crlf_hit. simpl. pose proof (replace_crlf_length s). lia.
  - rewrite replace_crlf_miss by done. simpl.
    rewrite Index_cons, Hm in H.
    destruct (strings.Index s crlf <? 0) eqn:E; [lia|].
    apply Z.ltb_ge in E. specialize (IH E). lia.
Qed.

End ReplaceCRLF.

(** ** [strings.TrimSpace] *)

Section TrimFacts.

Implicit Types s : list ascii.

Lemma trim_left_length n s : (length (strings.trim_left n s) <= length s)%nat.
Proof.
  revert s. induction n as [|n IH]; intros s; simpl; [done|].
  destruct (strings.leading_space s); [done|].
  etrans; [apply IH|]. rewrite length_drop. lia.
Qed.

Lemma trim_right_length n s : (length (strings.trim_right n s) <= length s)%nat.
Proof.
  revert s. induction n as [|n IH]; intros s; simpl; [done|].
  destruct (strings.trailing_space s); [done|].
  etrans; [apply IH|]. rewrite length_take. lia.
Qed.

Lemma TrimSpace_length s : (length (strings.TrimSpace s) <= length s)%nat.
Proof.
  unfold strings.TrimSpace. etrans; [apply trim_right_length|].
  apply trim_left_length.
Qed.

Lemma trim_left_subseteq n s : strings.trim_left n s ⊆ s.
Proof.
  revert s. induction n as [|n IH]; intros s; simpl; [done|].
  destruct (strings.leading_space s); [done|].
  etrans; [apply IH|]. apply subseteq_drop.
Qed.

Lemma trim_right_subseteq n s : strings.trim_right n s ⊆ s.
Proof.
  revert s. induction n as [|n IH]; intros s; simpl; [done|].
  destruct (strings.trailing_space s); [done|].
  etrans; [apply IH|]. apply subseteq_take.
Qed.

Lemma TrimSpace_subseteq s : strings.TrimSpace s ⊆ s.
Proof.
  unfold strings.TrimSpace. etrans; [apply trim_right_subseteq|].
  apply trim_left_subseteq.
Qed.

End TrimFacts.

(** ** [stripYAMLFrontmatter] *)

Section Frontmatter.

Implicit Types s t : list ascii.

Local Abbreviation crlf := [CR; LF] (only parsing).
Local Abbreviation normalize s :=
  (strings.ReplaceAll s [CR; LF] [LF]) (only parsing).

(** The two ways out of [stripYAMLFrontmatter]. *)
Lemma strip_without_block s :
  hasFrontmatter (normalize s) = false -> stripYAMLFrontmatter s = normalize s.
Proof.
  unfold hasFrontmatter, stripYAMLFrontmatter. cbv zeta.
  intros H. apply andb_false_iff in H as [->|H]; [done|].
  destruct (strings.HasPrefix (normalize s) (lit "---")); [|done].
  simpl negb. cbv iota.
  apply Z.leb_gt in H. by apply Z.ltb_lt in H as ->.
Qed.

Lemma strip_block_shorter s :
  hasFrontmatter (normalize s) = true ->
  (length (stripYAMLFrontmatter s) < length (normalize s))%nat.
Proof.
  unfold hasFrontmatter, stripYAMLFrontmatter. cbv zeta.
  intros H. apply andb_true_iff in H as [Hp Hi]. rewrite Hp. simpl negb. cbv iota.
  apply Z.leb_le in Hi.
  set (idx := strings.Index _ _) in *.
  destruct (idx <? 0) eqn:E; [apply Z.ltb_lt in E; lia|].
  apply HasPrefix_length in Hp. simpl in Hp.
  assert (Hd : (length (slice_from (normalize s) (3 + idx + 4))
                < length (normalize s))%nat).
  { unfold slice_from. rewrite length_drop. lia. }
  eapply Nat.le_lt_trans; [apply TrimSpace_length|].
  destruct (slice_from _ (3 + idx + 4)) as [|c r]; [done|].
  destruct (bool_decide (c = LF)); simpl length in *; lia.
Qed.

Lemma strip_length s :
  (length (stripYAMLFrontmatter s) <= length s)%nat.
Proof.
  pose proof (replace_crlf_length s) as Hn.
  destruct (hasFrontmatter (normalize s)) eqn:E.
  - apply strip_block_shorter in E. lia.
  - by rewrite strip_without_block.
Qed.

(** The texts that [stripYAMLFrontmatter] leaves alone. *)
Lemma strip_fixed t :
  stripYAMLFrontmatter t = t
  <-> strings.Index t crlf < 0 /\ hasFrontmatter t = false.
Proof.
  split.
  - intros Heq.
    assert (Hc : strings.Index t crlf < 0).
    { destruct (Index_range t crlf) as [->|[H _]]; [lia|].
      apply replace_crlf_shorter in H.
      destruct (hasFrontmatter (normalize t)) eqn:E.
      - apply strip_block_shorter in E. rewrite Heq in E. lia.
      - apply strip_without_block in E. rewrite Heq in E.
        rewrite <- E in H. lia. }
    split; [done|].
    destruct (hasFrontmatter t) eqn:E; [|done].
    pose proof (replace_crlf_id t Hc) as Hid.
    rewrite <- Hid in E. apply strip_block_shorter in E.
    rewrite Heq, Hid in E. lia.
  - intros [Hc Hf].
    pose proof (replace_crlf_id t Hc) as Hid.
    rewrite <- Hid in Hf. rewrite strip_without_block; done.
Qed.

End Frontmatter.

(** ** Front matter and the prompt wrapper *)

(** The test table of [TestStripYAMLFrontmatter]. *)
Example strip_with_frontmatter :
  stripYAMLFrontmatter
    (lit "---" ++ [LF] ++ lit "name: test" ++ [LF] ++ lit "description: foo"
       ++ [LF] ++ lit "---" ++ [LF; LF] ++ lit "# Body" ++ [LF]
       ++ lit "Content here.")
  = lit "# Body" ++ [LF] ++ lit "Content here.".
Proof. vm_compute. reflexivity. Qed.

Example strip_only_frontmatter :
  stripYAMLFrontmatter
    (lit "---" ++ [LF] ++ lit "name: test" ++ [LF] ++ lit "---") = [].
Proof. vm_compute. reflexivity. Qed.

Example strip_crlf :
  stripYAMLFrontmatter
    (lit "---" ++ [CR; LF] ++ lit "name: test" ++ [CR; LF] ++ lit "---"
       ++ [CR; LF; CR; LF] ++ lit "# Body" ++ [CR; LF] ++ lit "Content.")
  = lit "# Body" ++ [LF] ++ lit "Content.".
Proof. vm_compute. reflexivity. Qed.

(** Only the first block goes: what is left of [twoBlocks] opens with the
    second block, which a second pass removes. *)
Example strip_twoBlocks_once :
  stripYAMLFrontmatter twoBlocks
  = lit "---" ++ [LF] ++ lit "b" ++ [LF] ++ lit "---" ++ [LF] ++ lit "c".
Proof. vm_compute. reflexivity. Qed.

Example strip_twoBlocks_twice :
  stripYAMLFrontmatter (stripYAMLFrontmatter twoBlocks) = lit "c".
Proof. vm_compute. reflexivity. Qed.

(** Line ends are normalised once per pass: CR CR LF becomes CR LF, and
    then LF. *)
Example strip_cr_cr_lf :
  stripYAMLFrontmatter [CR; CR; LF] = [CR; LF]
  /\ stripYAMLFrontmatter [CR; LF] = [LF].
Proof. split; vm_compute; reflexivity. Qed.

(** C4, as stated, fails: stripping [twoBlocks] twice differs from
    stripping it once. *)
Lemma strip_twice_differs :
  stripYAMLFrontmatter (stripYAMLFrontmatter twoBlocks)
  <> stripYAMLFrontmatter twoBlocks.
Proof. rewrite strip_twoBlocks_twice, strip_twoBlocks_once. discriminate. Qed.

(** C4, amended: stripping twice equals stripping once exactly when the
    text stripped once holds no CR LF pair and does not itself open with a
    front-matter block. *)
Theorem strip_twice_iff (s : list ascii) :
  stripYAMLFrontmatter (stripYAMLFrontmatter s) = stripYAMLFrontmatter s
  <-> strings.Index (stripYAMLFrontmatter s) [CR; LF] < 0
      /\ hasFrontmatter (stripYAMLFrontmatter s) = false.
Proof. apply strip_fixed. Qed.

(** [TestWrapTaskWithAgentPrompt] *)
Example wrap_P_do :
  WrapTaskWithAgentPrompt (lit "P") (lit "do")
  = lit "<agent-prompt>" ++ [LF] ++ lit "P" ++ [LF] ++ lit "</agent-prompt>"
      ++ [LF; LF] ++ lit "do".
Proof. reflexivity. Qed.

(** C5, as stated, fails: the prompt of the test is not the template
    filled with [P] and [do]. *)
Lemma wrap_differs_from_template :
  WrapTaskWithAgentPrompt (lit "P") (lit "do")
  <> promptTemplate (lit "P") (lit "do").
Proof. vm_compute. discriminate. Qed.

(** C5, amended: the assembled prompt is the template filled with the
    file contents set between two line feeds, so it is two bytes longer
    than the template filled with the contents alone. *)
Theorem wrap_is_template_with_newlines (prompt task : list ascii) :
  WrapTaskWithAgentPrompt prompt task
  = promptTemplate ([LF] ++ prompt ++ [LF]) task
  /\ len (WrapTaskWithAgentPrompt prompt task)
     = len (promptTemplate prompt task) + 2.
Proof.
  split.
  - unfold WrapTaskWithAgentPrompt, promptTemplate.
    by rewrite <- !app_assoc.
  - unfold WrapTaskWithAgentPrompt, promptTemplate.
    rewrite !len_app. unfold len. simpl. lia.
Qed.

(** ** Computations *)

Section IOFacts.

Context {A B : Type}.

Lemma fst_bind (m : IO A) (k : A -> IO B) : fst (bind m k) = fst (k (fst m)).
Proof. reflexivity. Qed.

Lemma snd_bind (m : IO A) (k : A -> IO B) :
  snd (bind m k) = snd m ++ snd (k (fst m)).
Proof. reflexivity. Qed.

Lemma bind_call (c : Call) (a : A) (k : A -> IO B) :
  bind (call c a) k = (fst (k a), c :: snd (k a)).
Proof. reflexivity. Qed.

Lemma bind_ret (a : A) (k : A -> IO B) : bind (ret a) k = k a.
Proof. unfold bind, ret. simpl. by destruct (k a). Qed.

End IOFacts.

(** ** Paths *)

Section PathFacts.

Implicit Types e p : list ascii.
Implicit Types es out : list (list ascii).

Local Abbreviation sep := filepath.Separator (only parsing).

Lemma split_nonempty p : filepath.split p <> [].
Proof.
  destruct p as [|c p]; cbn [filepath.split]; [done|].
  destruct (bool_decide _); [done|]. by destruct (filepath.split p).
Qed.

Lemma split_sep_cons p : filepath.split (sep :: p) = [] :: filepath.split p.
Proof. reflexivity. Qed.

Lemma split_app_sep e p :
  sep ∉ e -> filepath.split (e ++ sep :: p) = e :: filepath.split p.
Proof.
  induction e as [|c e IH]; intros He; [done|].
  apply not_elem_of_cons in He as [Hc He]. cbn [app filepath.split].
  rewrite bool_decide_eq_false_2 by done. by rewrite IH.
Qed.

Lemma split_no_sep e : sep ∉ e -> filepath.split e = [e].
Proof.
  induction e as [|c e IH]; intros He; [done|].
  apply not_elem_of_cons in He as [Hc He]. cbn [filepath.split].
  rewrite bool_decide_eq_false_2 by done. by rewrite IH.
Qed.

Lemma split_no_sep_elem p : Forall (fun e => sep ∉ e) (filepath.split p).
Proof.
  induction p as [|c p IH]; cbn [filepath.split].
  - repeat constructor. apply not_elem_of_nil.
  - destruct (bool_decide (c = sep)) eqn:E.
    + constructor; [apply not_elem_of_nil | done].
    + apply bool_decide_eq_false in E.
      destruct (filepath.split p) as [|e es] eqn:Es;
        [by apply split_nonempty in Es|].
      inversion IH as [|? ? He Hes]; subst. constructor; [|done].
      by apply not_elem_of_cons.
Qed.

Lemma split_Join es :
  Forall (fun e => sep ∉ e) es -> es <> [] ->
  filepath.split (strings.Join es [sep]) = es.
Proof.
  induction es as [|e es IH]; intros Hes Hne; [done|].
  inversion Hes as [|? ? He Hes']; subst.
  destruct es as [|e' es].
  - cbn [strings.Join]. by apply split_no_sep.
  - change (strings.Join (e :: e' :: es) [sep])
      with (e ++ sep :: strings.Join (e' :: es) [sep]).
    rewrite split_app_sep by done. by rewrite IH.
Qed.

Lemma normalElem_no_sep es :
  Forall normalElem es -> Forall (fun e => sep ∉ e) es.
Proof. intros H. eapply Forall_impl; [exact H|]. by intros e (_ & He & _). Qed.

(** [Clean] keeps a normal element. *)
Lemma clean_elem_normal rooted out e :
  normalElem e -> filepath.clean_elem rooted out e = e :: out.
Proof.
  intros (H1 & _ & H3 & H4). unfold filepath.clean_elem.
  by rewrite !bool_decide_eq_false_2.
Qed.

Lemma fold_clean_normal rooted es out :
  Forall normalElem es ->
  fold_left (filepath.clean_elem rooted) es out = reverse es ++ out.
Proof.
  revert out. induction es as [|e es IH]; intros out Hes; [done|].
  inversion Hes; subst. cbn [fold_left].
  rewrite clean_elem_normal by done. rewrite IH by done.
  by rewrite reverse_cons, <- app_assoc.
Qed.

(** What [Clean] has written so far is made of normal elements when the
    path is rooted. *)
Lemma clean_elem_rooted_inv out e :
  sep ∉ e -> Forall normalElem out ->
  Forall normalElem (filepath.clean_elem true out e).
Proof.
  intros He Hout. unfold filepath.clean_elem.
  destruct (bool_decide (e = [])) eqn:E1; [done|].
  destruct (bool_decide (e = [dot])) eqn:E2; [done|]. cbn [orb].
  destruct (bool_decide (e = filepath.dotdot)) eqn:E3.
  - destruct out as [|l out']; [done|]. inversion Hout as [|? ? Hl Ho]; subst.
    destruct (bool_decide (l = filepath.dotdot)) eqn:E4; [|done].
    apply bool_decide_eq_true in E4. by destruct Hl as (_ & _ & _ & ?).
  - constructor; [|done].
    apply bool_decide_eq_false in E1, E2, E3. done.
Qed.

Lemma fold_clean_rooted_inv es out :
  Forall (fun e => sep ∉ e) es -> Forall normalElem out ->
  Forall normalElem (fold_left (filepath.clean_elem true) es out).
Proof.
  revert out. induction es as [|e es IH]; intros out Hes Hout; [done|].
  inversion Hes; subst. cbn [fold_left].
  apply IH; [done|]. by apply clean_elem_rooted_inv.
Qed.

(** A cleaned absolute path is [/e1/.../en] for normal elements. *)
Lemma Clean_rooted p :
  filepath.IsAbs p = true ->
  exists es, Forall normalElem es /\ filepath.Clean p = rootedPath es.
Proof.
  intros Hp. unfold filepath.Clean.
  destruct (bool_decide (p = [])) eqn:E.
  { apply bool_decide_eq_true in E. by subst. }
  rewrite Hp. eexists. split; [|reflexivity].
  apply Forall_reverse, fold_clean_rooted_inv; [|constructor].
  apply split_no_sep_elem.
Qed.

Lemma Clean_rootedPath es :
  Forall normalElem es -> filepath.Clean (rootedPath es) = rootedPath es.
Proof.
  intros Hes. unfold filepath.Clean, rootedPath.
  rewrite bool_decide_eq_false_2 by done.
  change (filepath.IsAbs (sep :: strings.Join es [sep])) with true.
  cbv iota. rewrite split_sep_cons. cbn [fold_left].
  change (filepath.clean_elem true [] []) with (@nil (list ascii)).
  destruct es as [|e es']; [reflexivity|].
  rewrite split_Join; [|by apply normalElem_no_sep|done].
  rewrite fold_clean_normal by done.
  by rewrite app_nil_r, reverse_involutive.
Qed.

Lemma elements_rootedPath es :
  Forall normalElem es -> filepath.elements (rootedPath es) = [] :: es.
Proof.
  intros Hes. unfold filepath.elements, rootedPath.
  rewrite split_sep_cons.
  destruct es as [|e es'] using rev_ind; [reflexivity|].
  rewrite split_Join.
  - rewrite reverse_cons, reverse_snoc. cbn [app].
    apply Forall_app in Hes as [_ He]. inversion He as [|? ? (Hne & _) _]; subst.
    by destruct e.
  - by apply normalElem_no_sep.
  - by destruct es'.
Qed.

Lemma rootedPath_inj es es' :
  Forall normalElem es -> Forall normalElem es' ->
  rootedPath es = rootedPath es' -> es = es'.
Proof.
  intros H H' Heq.
  pose proof (elements_rootedPath es H) as E.
  rewrite Heq, elements_rootedPath in E by done. by injection E.
Qed.

(** [strip_common] removes the longest common prefix. *)
Lemma strip_common_spec (b t : list (list ascii)) :
  exists c,
    b = c ++ fst (filepath.strip_common b t)
    /\ t = c ++ snd (filepath.strip_common b t).
Proof.
  revert t. induction b as [|x b IH]; intros t; [by exists []|].
  destruct t as [|y t]; [by exists []|]. cbn [filepath.strip_common].
  destruct (bool_decide (x = y)) eqn:E; [|by exists []].
  apply bool_decide_eq_true in E as ->.
  destruct (IH t) as (c & Hb & Ht). exists (y :: c). cbn [app].
  by rewrite <- Hb, <- Ht.
Qed.

Lemma strip_common_prefix (b t : list (list ascii)) :
  fst (filepath.strip_common b t) = [] <-> b `prefix_of` t.
Proof.
  revert t. induction b as [|x b IH]; intros t.
  - split; [intros _; apply prefix_nil | by destruct t].
  - destruct t as [|y t].
    + split; [done | intros H; by apply prefix_nil_inv in H].
    + cbn [filepath.strip_common]. destruct (bool_decide (x = y)) eqn:E.
      * apply bool_decide_eq_true in E as ->. rewrite IH. split.
        -- by apply prefix_cons.
        -- by apply prefix_cons_inv_2.
      * apply bool_decide_eq_false in E. split; [done|].
        intros H. by apply prefix_cons_inv_1 in H.
Qed.

Lemma strip_common_normal (b t : list (list ascii)) :
  Forall normalElem b -> Forall normalElem t ->
  Forall normalElem (fst (filepath.strip_common b t))
  /\ Forall normalElem (snd (filepath.strip_common b t)).
Proof.
  intros Hb Ht. destruct (strip_common_spec b t) as (c & Eb & Et).
  rewrite Eb in Hb. rewrite Et in Ht.
  apply Forall_app in Hb as [_ Hb]. by apply Forall_app in Ht as [_ Ht].
Qed.

Lemma fold_clean_dotdot (n : nat) (out : list (list ascii)) :
  Forall (fun e => e = filepath.dotdot) out ->
  fold_left (filepath.clean_elem false) (replicate n filepath.dotdot) out
  = replicate n filepath.dotdot ++ out.
Proof.
  revert out. induction n as [|n IH]; intros out Hout; [done|].
  cbn [replicate fold_left].
  assert (Hstep : filepath.clean_elem false out filepath.dotdot
                  = filepath.dotdot :: out).
  { unfold filepath.clean_elem.
    change (bool_decide (filepath.dotdot = [])) with false.
    change (bool_decide (filepath.dotdot = [dot])) with false. cbn [orb].
    rewrite bool_decide_eq_true_2 by done.
    destruct out as [|l out']; [done|]. inversion Hout; subst.
    by rewrite bool_decide_eq_true_2. }
  rewrite Hstep, IH by (by constructor).
  change (filepath.dotdot :: out) with ([filepath.dotdot] ++ out).
  rewrite app_assoc. f_equal. symmetry. apply replicate_cons_app.
Qed.

Lemma sep_notin_dotdot : sep ∉ filepath.dotdot.
Proof. intros H. refute_by_computation H. Qed.

Lemma upDown_no_sep (n : nat) (t : list (list ascii)) :
  Forall normalElem t -> Forall (fun e => sep ∉ e) (upDown n t).
Proof.
  intros Ht. apply Forall_app. split; [|by apply normalElem_no_sep].
  apply Forall_replicate, sep_notin_dotdot.
Qed.

Lemma Join_cons_nonempty e es : e <> [] -> strings.Join (e :: es) [sep] <> [].
Proof. destruct es, e; done. Qed.

Lemma upDown_head (n : nat) (t : list (list ascii)) :
  Forall normalElem t -> upDown n t <> [] ->
  exists e es, upDown n t = e :: es /\ e <> [] /\ sep ∉ e.
Proof.
  intros Ht Hne. unfold upDown in *. destruct n as [|n].
  - destruct t as [|e es]; [done|]. inversion Ht as [|? ? (H1 & H2 & _) _]; subst.
    by exists e, es.
  - exists filepath.dotdot, (replicate n filepath.dotdot ++ t).
    split; [done|]. split; [done | apply sep_notin_dotdot].
Qed.

(** Such a path is already clean. *)
Lemma Clean_upDown (n : nat) (t : list (list ascii)) :
  Forall normalElem t -> upDown n t <> [] ->
  filepath.Clean (strings.Join (upDown n t) [sep])
  = strings.Join (upDown n t) [sep].
Proof.
  intros Ht Hne. unfold filepath.Clean.
  destruct (upDown_head n t Ht Hne) as (e & es & Heq & He & Hs).
  assert (Hj : strings.Join (upDown n t) [sep] <> []).
  { rewrite Heq. by apply Join_cons_nonempty. }
  rewrite bool_decide_eq_false_2 by done.
  assert (Hrel : filepath.IsAbs (strings.Join (upDown n t) [sep]) = false).
  { rewrite Heq. destruct e as [|c e]; [done|].
    apply not_elem_of_cons in Hs as [Hc _].
    destruct es; cbn; by rewrite bool_decide_eq_false_2. }
  rewrite Hrel. rewrite split_Join by (by apply upDown_no_sep || done).
  assert (Hf : fold_left (filepath.clean_elem false) (upDown n t) []
               = reverse t ++ replicate n filepath.dotdot).
  { unfold upDown. rewrite List.fold_left_app.
    rewrite fold_clean_dotdot by constructor.
    rewrite fold_clean_normal by done. by rewrite app_nil_r. }
  rewrite Hf, reverse_app, reverse_involutive, reverse_replicate.
  fold (upDown n t). by rewrite bool_decide_eq_false_2.
Qed.

Lemma sep_ne_dot : sep <> dot.
Proof. intros H. refute_by_computation H. Qed.

Lemma Rel_rooted (ds ps : list (list ascii)) :
  Forall normalElem ds -> Forall normalElem ps -> ds <> ps ->
  filepath.Rel (rootedPath ds) (rootedPath ps)
  = Some (strings.Join
            (upDown (length (fst (filepath.strip_common ds ps)))
               (snd (filepath.strip_common ds ps))) [sep]).
Proof.
  intros Hd Hp Hne. unfold filepath.Rel. cbv zeta.
  rewrite !Clean_rootedPath by done.
  rewrite (bool_decide_eq_false_2 (rootedPath ps = rootedPath ds)).
  2:{ intros H. apply rootedPath_inj in H; [|done..]. by subst. }
  rewrite (bool_decide_eq_false_2 (rootedPath ds = [dot])).
  2:{ unfold rootedPath. by intros [= ]. }
  change (filepath.IsAbs (rootedPath ds)) with true.
  change (filepath.IsAbs (rootedPath ps)) with true.
  rewrite bool_decide_eq_true_2 by done. cbn [negb].
  rewrite !elements_rootedPath by done. cbn [filepath.strip_common].
  rewrite bool_decide_eq_true_2 by done.
  destruct (strip_common_normal ds ps Hd Hp) as [Hb _].
  destruct (filepath.strip_common ds ps) as [b t]. cbn [fst snd] in *.
  unfold upDown. destruct b as [|e b]; [done|]. destruct t as [|y t]; [done|].
  inversion Hb as [|? ? (_ & _ & _ & He) _]; subst.
  by rewrite bool_decide_eq_false_2.
Qed.

(** A relative path that starts with a normal element is not [.], not
    [..], and does not start with [../]. *)
Lemma Join_normal_head e es :
  normalElem e ->
  strings.Join (e :: es) [sep] <> [dot]
  /\ strings.Join (e :: es) [sep] <> filepath.dotdot
  /\ strings.HasPrefix (strings.Join (e :: es) [sep]) (filepath.dotdot ++ [sep])
     = false.
Proof.
  intros (H1 & H2 & H3 & H4).
  assert (Hj : exists k, strings.Join (e :: es) [sep] = e ++ k
                         /\ (k = [] \/ exists k', k = sep :: k')).
  { destruct es as [|e' es].
    - exists []. split; [by rewrite app_nil_r | by left].
    - eexists. split; [reflexivity|]. right. by eexists. }
  destruct Hj as (k & -> & Hk).
  assert (Hin : k <> [] -> sep ∈ e ++ k).
  { destruct Hk as [->|[k' ->]]; [done|]. intros _.
    apply elem_of_app. right. apply list_elem_of_here. }
  split; [|split].
  - intros H. destruct (decide (k = [])) as [->|Hk'].
    + by rewrite app_nil_r in H.
    + apply Hin in Hk'. rewrite H in Hk'.
      apply list_elem_of_singleton in Hk'. by apply sep_ne_dot.
  - intros H. destruct (decide (k = [])) as [->|Hk'].
    + by rewrite app_nil_r in H.
    + apply Hin in Hk'. rewrite H in Hk'. by apply sep_notin_dotdot.
  - apply not_true_iff_false. intros Hp. apply HasPrefix_prefix in Hp.
    destruct Hp as [j Hj]. rewrite <- app_assoc in Hj.
    apply app_eq_inv in Hj as [(k0 & He & Hk0)|(k0 & Hd & Hk0)].
    + destruct k0 as [|c k0]; [by rewrite app_nil_r in He|].
      cbn in Hk0. injection Hk0 as <- _. apply H2. rewrite He.
      apply elem_of_app. right. apply list_elem_of_here.
    + destruct k0 as [|c k0]; [by rewrite app_nil_r in Hd|].
      destruct Hk as [->|[k' ->]]; [done|].
      cbn in Hk0. injection Hk0 as <- _. apply sep_notin_dotdot.
      rewrite Hd. apply elem_of_app. right. apply list_elem_of_here.
Qed.

(** On cleaned absolute paths [isWithinDir] is the prefix order on path
    elements: [path] is within [dir] when it is [dir] or lies below it. *)
Lemma isWithinDir_prefix (ps ds : list (list ascii)) :
  Forall normalElem ps -> Forall normalElem ds ->
  isWithinDir (rootedPath ps) (rootedPath ds) = true <-> ds `prefix_of` ps.
Proof.
  intros Hp Hd. unfold isWithinDir.
  destruct (decide (ds = ps)) as [->|Hne].
  { unfold filepath.Rel. cbv zeta. rewrite bool_decide_eq_true_2 by done.
    change (filepath.Clean [dot]) with [dot].
    rewrite bool_decide_eq_true_2 by done. done. }
  rewrite Rel_rooted by done.
  destruct (strip_common_normal ds ps Hd Hp) as [Hb Ht].
  destruct (strip_common_spec ds ps) as (c & Eb & Et).
  rewrite <- strip_common_prefix.
  destruct (filepath.strip_common ds ps) as [b t]. cbn [fst snd] in *.
  assert (Hud : upDown (length b) t <> []).
  { unfold upDown. destruct b; [|done]. destruct t; [|done].
    rewrite app_nil_r in Eb, Et. congruence. }
  rewrite Clean_upDown by done. unfold upDown in *.
  destruct b as [|e b]; cbn [length replicate app].
  - destruct t as [|y t]; [done|]. inversion Ht; subst.
    destruct (Join_normal_head y t) as (J1 & J2 & J3); [done|].
    rewrite !bool_decide_eq_false_2 by done. by rewrite J3.
  - split; [|done]. intros H. exfalso. revert H.
    destruct (replicate (length b) filepath.dotdot ++ t) as [|x r].
    + vm_compute. discriminate.
    + change (strings.Join (filepath.dotdot :: x :: r) [sep])
        with ((filepath.dotdot ++ [sep]) ++ strings.Join (x :: r) [sep]).
      rewrite HasPrefix_app.
      rewrite (bool_decide_eq_false_2 (_ = [dot])) by done.
      by destruct (bool_decide _).
Qed.

Lemma clean_elem_nonempty rooted out e :
  Forall (fun x => x <> []) out ->
  Forall (fun x => x <> []) (filepath.clean_elem rooted out e).
Proof.
  intros Hout. unfold filepath.clean_elem.
  destruct (bool_decide (e = [])) eqn:E1; [done|].
  apply bool_decide_eq_false in E1.
  destruct (bool_decide (e = [dot])); [done|]. cbn [orb].
  destruct (bool_decide (e = filepath.dotdot)); [|by constructor].
  destruct out as [|l out'].
  - destruct rooted; [done | by constructor].
  - destruct (bool_decide (l = filepath.dotdot)); [by constructor|].
    by inversion Hout.
Qed.

Lemma fold_clean_nonempty rooted es out :
  Forall (fun x => x <> []) out ->
  Forall (fun x => x <> []) (fold_left (filepath.clean_elem rooted) es out).
Proof.
  revert out. induction es as [|e es IH]; intros out Hout; [done|].
  cbn [fold_left]. by apply IH, clean_elem_nonempty.
Qed.

(** [Clean] never returns the empty string. *)
Lemma Clean_nonempty p : filepath.Clean p <> [].
Proof.
  unfold filepath.Clean. destruct (bool_decide (p = [])); [done|].
  destruct (filepath.IsAbs p); [done|]. cbv zeta.
  pose proof (fold_clean_nonempty false (filepath.split p) [] ltac:(constructor))
    as H.
  apply Forall_reverse in H.
  destruct (reverse _) as [|e es]; [done|].
  rewrite bool_decide_eq_false_2 by done.
  inversion H; subst. by apply Join_cons_nonempty.
Qed.

Lemma skillPath_nonempty (root skill : list ascii) : skillPath root skill <> [].
Proof.
  unfold skillPath. cbn [filepath.Join].
  destruct (bool_decide (root = [])); [|apply Clean_nonempty].
  destruct (bool_decide (skill = [])); apply Clean_nonempty.
Qed.

(** X4: on cleaned absolute paths the allow-list check compares path
    elements, not bytes: a path passes exactly when the elements of one
    of the directories are a prefix of its own, so the directory itself
    and what lies below it pass, and a sibling whose name merely starts
    with the directory's name does not. *)
Lemma withinAny_prefix (ps : list (list ascii)) (dss : list (list (list ascii))) :
  Forall normalElem ps -> Forall (Forall normalElem) dss ->
  withinAny (rootedPath ps) (map rootedPath dss) = true
  <-> exists ds, ds ∈ dss /\ ds `prefix_of` ps.
Proof.
  intros Hp Hd. unfold withinAny. rewrite existsb_exists. split.
  - intros (d & Hin & Hw). apply list_elem_of_In, list_elem_of_fmap in Hin.
    destruct Hin as (ds & -> & Hds). exists ds. split; [done|].
    apply isWithinDir_prefix; [done| |done].
    by eapply Forall_forall in Hd.
  - intros (ds & Hds & Hpre). exists (rootedPath ds). split.
    + apply list_elem_of_In, list_elem_of_fmap. by exists ds.
    + apply isWithinDir_prefix; [done| |done].
      by eapply Forall_forall in Hd.
Qed.

(** [TestReadAgentPromptFile_RestrictedRejectsTraversal]: the elements of
    [~/.claude/../secret.md] are [home], [u] and [secret.md] once the path
    is cleaned, and no allowed directory is a prefix of them. *)
Example traversal_is_outside :
  promptAbsPath demoOS (lit "~/.claude/../secret.md")
  = Ok (rootedPath [lit "home"; lit "u"; lit "secret.md"])
  /\ promptAllowedDirs demoOS (lit "/home/u")
     = map rootedPath
         [ [lit "home"; lit "u"; lit ".claude"];
           [lit "home"; lit "u"; lit ".codex"];
           [lit "home"; lit "u"; lit ".codeagent"; lit "agents"] ].
Proof. split; vm_compute; reflexivity. Qed.

End PathFacts.

(** ** Looking a skill up *)

(** The two roots are tried in the order of the slice [roots]. *)
Lemma findSkillFile_eq (sys : OS) (home skill : list ascii) :
  findSkillFile sys home skill =
    if os_stat sys (codexSkillFile home skill)
    then (codexSkillFile home skill, [CallStat (codexSkillFile home skill)])
    else if os_stat sys (claudeSkillFile home skill)
    then (claudeSkillFile home skill,
          [CallStat (codexSkillFile home skill);
           CallStat (claudeSkillFile home skill)])
    else ([], [CallStat (codexSkillFile home skill);
               CallStat (claudeSkillFile home skill)]).
Proof.
  unfold findSkillFile, skillRoots. cbn [firstSkillFile]. unfold os.Stat.
  fold (codexSkillFile home skill). fold (claudeSkillFile home skill).
  rewrite bind_call.
  destruct (os_stat sys (codexSkillFile home skill)); [done|].
  rewrite bind_call.
  by destruct (os_stat sys (claudeSkillFile home skill)).
Qed.

Lemma findSkillFile_found (sys : OS) (home skill : list ascii) :
  fst (findSkillFile sys home skill) <> [] -> installed sys home skill.
Proof.
  rewrite findSkillFile_eq. unfold installed.
  destruct (os_stat sys (codexSkillFile home skill)); [by left|].
  destruct (os_stat sys (claudeSkillFile home skill)); [by right|done].
Qed.

Lemma findSkillFile_calls (sys : OS) (home skill : list ascii) (c : Call) :
  c ∈ snd (findSkillFile sys home skill) ->
  c = CallStat (codexSkillFile home skill)
  \/ c = CallStat (claudeSkillFile home skill).
Proof.
  rewrite findSkillFile_eq.
  destruct (os_stat sys (codexSkillFile home skill));
    [|destruct (os_stat sys (claudeSkillFile home skill))]; simpl;
    rewrite ?elem_of_cons, ?elem_of_nil; tauto.
Qed.

(** C7: [findSkillFile] looks under [~/.codex/skills] first and under
    [~/.claude/skills] second and returns the first [SKILL.md] that
    exists; when the Codex copy exists it is returned and the Claude copy
    is not even looked at, and the skill is loaded from the Codex copy. *)
Theorem findSkillFile_codex_first (sys : OS) (home skill : list ascii) :
  findSkillFile sys home skill =
    (if os_stat sys (codexSkillFile home skill)
     then (codexSkillFile home skill, [CallStat (codexSkillFile home skill)])
     else if os_stat sys (claudeSkillFile home skill)
     then (claudeSkillFile home skill,
           [CallStat (codexSkillFile home skill);
            CallStat (claudeSkillFile home skill)])
     else ([], [CallStat (codexSkillFile home skill);
                CallStat (claudeSkillFile home skill)]))
  /\ (validSkillName (strings.TrimSpace skill) = true ->
      os_stat sys (codexSkillFile home (strings.TrimSpace skill)) = true ->
      loadSkill sys home skill =
        match os_readFile sys (codexSkillFile home (strings.TrimSpace skill))
        with
        | Some data =>
            if len data =? 0 then None
            else Some (strings.TrimSpace skill,
                       stripYAMLFrontmatter (strings.TrimSpace data))
        | None => None
        end).
Proof.
  split; [apply findSkillFile_eq|].
  intros Hv Hs. unfold loadSkill. cbv zeta.
  rewrite Hv, findSkillFile_eq, Hs. cbn [fst].
  rewrite bool_decide_eq_false_2; [done|]. apply skillPath_nonempty.
Qed.

(** The two files of a skill, for the home directory [/home/u]. *)
Example codex_and_claude_paths :
  codexSkillFile (lit "/home/u") (lit "dup-skill")
  = lit "/home/u/.codex/skills/dup-skill/SKILL.md"
  /\ claudeSkillFile (lit "/home/u") (lit "dup-skill")
     = lit "/home/u/.claude/skills/dup-skill/SKILL.md".
Proof. split; vm_compute; reflexivity. Qed.

(** ** Detecting the skills of a project *)

Section Detect.

Variable sys : OS.
Variable home : list ascii.

Lemma detect_inv_empty : detect_inv sys home ([], ∅).
Proof.
  split; [constructor|]. split; intros s Hs; by apply elem_of_nil in Hs.
Qed.

Lemma detect_inv_add (st : detectState) (skill : list ascii) :
  detect_inv sys home st ->
  seenBefore (snd st) skill = false ->
  installed sys home skill ->
  detect_inv sys home (fst st ++ [skill], <[skill := true]> (snd st)).
Proof.
  intros (Hnd & Hseen & Hinst) Hnew Hi. split; [|split]; simpl.
  - apply NoDup_app. split; [done|]. split; [|apply NoDup_singleton].
    intros s Hs Hs'. apply list_elem_of_singleton in Hs' as ->.
    apply Hseen in Hs. congruence.
  - intros s Hs. unfold seenBefore. apply elem_of_app in Hs as [Hs|Hs].
    + destruct (decide (skill = s)) as [->|Hne].
      * by rewrite lookup_insert_eq.
      * rewrite lookup_insert_ne by done. by apply Hseen.
    + apply list_elem_of_singleton in Hs as ->. by rewrite lookup_insert_eq.
  - intros s Hs. apply elem_of_app in Hs as [Hs|Hs]; [by apply Hinst|].
    by apply list_elem_of_singleton in Hs as ->.
Qed.

Lemma detectSkills_inv (skills : list (list ascii)) (st : detectState) :
  detect_inv sys home st -> detect_inv sys home (fst (detectSkills sys home skills st)).
Proof.
  revert st. induction skills as [|skill rest IH]; intros st Hst;
    cbn [detectSkills].
  - done.
  - destruct (seenBefore (snd st) skill) eqn:Hseen; [by apply IH|].
    rewrite fst_bind.
    destruct (bool_decide (fst (findSkillFile sys home skill) = [])) eqn:E;
      cbn [negb]; [by apply IH|].
    apply IH, detect_inv_add; [done..|].
    apply findSkillFile_found. by apply bool_decide_eq_false in E.
Qed.

Lemma detectFiles_inv (workDir : list ascii) (files skills : list (list ascii))
    (st : detectState) :
  detect_inv sys home st ->
  detect_inv sys home (fst (detectFiles sys home workDir files skills st)).
Proof.
  induction files as [|f rest IH]; intros Hst; cbn [detectFiles]; [done|].
  unfold os.Stat. rewrite bind_call. cbn [fst].
  destruct (os_stat sys (filepath.Join [workDir; f]));
    [by apply detectSkills_inv | by apply IH].
Qed.

Lemma detectEntries_inv (workDir : list ascii) (table : list techEntry)
    (st : detectState) :
  detect_inv sys home st ->
  detect_inv sys home (fst (detectEntries sys home workDir table st)).
Proof.
  revert st. induction table as [|entry rest IH]; intros st Hst;
    cbn [detectEntries]; [done|].
  rewrite fst_bind. by apply IH, detectFiles_inv.
Qed.

(** Without a fingerprint file nothing is detected. *)
Lemma detectFiles_none (workDir : list ascii) (files skills : list (list ascii))
    (st : detectState) :
  (forall f, f ∈ files -> os_stat sys (filepath.Join [workDir; f]) = false) ->
  fst (detectFiles sys home workDir files skills st) = st.
Proof.
  induction files as [|f rest IH]; intros H; cbn [detectFiles]; [done|].
  unfold os.Stat. rewrite bind_call. cbn [fst].
  rewrite H by apply list_elem_of_here.
  apply IH. intros g Hg. apply H. by apply list_elem_of_further.
Qed.

Lemma detectEntries_none (workDir : list ascii) (table : list techEntry)
    (st : detectState) :
  (forall entry f, entry ∈ table -> f ∈ Files entry ->
     os_stat sys (filepath.Join [workDir; f]) = false) ->
  fst (detectEntries sys home workDir table st) = st.
Proof.
  revert st. induction table as [|entry rest IH]; intros st H;
    cbn [detectEntries]; [done|].
  rewrite fst_bind, detectFiles_none.
  - apply IH. intros e f He. apply H. by apply list_elem_of_further.
  - intros f. apply H, list_elem_of_here.
Qed.

End Detect.

Lemma DetectProjectSkills_inv (sys : OS) (workDir : list ascii) :
  match os_home sys with
  | Some home =>
      detect_inv sys home
        (fst (detectEntries sys home workDir techSkillMap ([], ∅)))
      /\ fst (DetectProjectSkills sys workDir)
         = fst (fst (detectEntries sys home workDir techSkillMap ([], ∅)))
  | None => fst (DetectProjectSkills sys workDir) = []
  end.
Proof.
  unfold DetectProjectSkills, os.UserHomeDir. rewrite bind_call.
  destruct (os_home sys) as [home|]; [|done].
  split; [apply detectEntries_inv, detect_inv_empty | done].
Qed.

(** C8: the list returned by [DetectProjectSkills] has no duplicates. *)
Theorem DetectProjectSkills_NoDup (sys : OS) (workDir : list ascii) :
  NoDup (fst (DetectProjectSkills sys workDir)).
Proof.
  pose proof (DetectProjectSkills_inv sys workDir) as H.
  destruct (os_home sys) as [home|].
  - destruct H as [(Hnd & _) ->]. exact Hnd.
  - rewrite H. constructor.
Qed.

(** C9: every name returned by [DetectProjectSkills] has a [SKILL.md]
    under [~/.codex/skills] or [~/.claude/skills]; a working directory
    without fingerprint files, and an unavailable home directory, give the
    empty list. *)
Theorem DetectProjectSkills_installed (sys : OS) (workDir : list ascii) :
  (forall name, name ∈ fst (DetectProjectSkills sys workDir) ->
     exists home, os_home sys = Some home /\ installed sys home name)
  /\ ((forall entry f, entry ∈ techSkillMap -> f ∈ Files entry ->
         os_stat sys (filepath.Join [workDir; f]) = false) ->
      fst (DetectProjectSkills sys workDir) = [])
  /\ (os_home sys = None -> fst (DetectProjectSkills sys workDir) = []).
Proof.
  pose proof (DetectProjectSkills_inv sys workDir) as H.
  destruct (os_home sys) as [home|] eqn:Hh.
  - destruct H as [(_ & _ & Hinst) Heq]. split; [|split].
    + intros name Hn. exists home. split; [done|]. apply Hinst.
      by rewrite <- Heq.
    + intros Hnone. rewrite Heq, detectEntries_none; done.
    + done.
  - split; [|split].
    + intros name Hn. rewrite H in Hn. by apply elem_of_nil in Hn.
    + done.
    + done.
Qed.

(** ** Resolving skills *)

Section Resolve.

Variable sys : OS.
Variable home : list ascii.

Implicit Types name body : list ascii.
Implicit Types st : resolveState.

Lemma len_skillBlock name body :
  len (skillBlock name body) = len body + tagOverhead name.
Proof.
  unfold skillBlock, tagOverhead. rewrite !len_app. unfold len. simpl. lia.
Qed.

Lemma tagOverhead_pos name : 25 <= tagOverhead name.
Proof. unfold tagOverhead. pose proof (len_nonneg name). unfold len in *. simpl. lia. Qed.

Lemma fitBody_prefix room body : fitBody room body `prefix_of` body.
Proof.
  unfold fitBody, slice_to. destruct (len body >? room); [|done].
  apply prefix_take.
Qed.

Lemma fitBody_whole room body : len body <= room -> fitBody room body = body.
Proof.
  unfold fitBody. intros H. destruct (len body >? room) eqn:E; [|done].
  apply Z.gtb_lt in E. lia.
Qed.

Lemma fitBody_cut room body :
  0 <= room < len body -> len (fitBody room body) = room.
Proof.
  unfold fitBody, slice_to, len. intros H.
  destruct (_ >? room) eqn:E; [|rewrite Z.gtb_ltb in E; apply Z.ltb_ge in E; lia].
  rewrite length_take. lia.
Qed.

Lemma fitBody_len room body : 0 <= room -> 0 <= len (fitBody room body) <= room.
Proof.
  intros H. split; [apply len_nonneg|].
  destruct (Z_lt_le_dec room (len body)).
  - rewrite fitBody_cut; lia.
  - by rewrite fitBody_whole.
Qed.

Lemma resolveBody_fst (name0 : list ascii) st :
  fst (resolveBody sys home name0 st) =
    match loadSkill sys home name0 with
    | None => Continue st
    | Some (name, body) => budgetStep name body st
    end.
Proof.
  unfold resolveBody, loadSkill. cbv zeta.
  set (name := strings.TrimSpace name0).
  destruct (bool_decide (name = [])) eqn:En.
  { apply bool_decide_eq_true in En. by rewrite En. }
  destruct (validSkillName name); cbn [negb]; [|done].
  rewrite fst_bind.
  destruct (bool_decide (fst (findSkillFile sys home name) = [])); [done|].
  unfold os.ReadFile. rewrite bind_call. cbn [fst].
  destruct (os_readFile sys _) as [data|]; [|done].
  destruct (len data =? 0); [done|].
  unfold budgetStep, fitBody. cbv zeta.
  set (body := stripYAMLFrontmatter _).
  destruct (snd st - tagOverhead name <=? 0); [done|].
  set (b := if len body >? _ then _ else _).
  replace (snd st - (len b + tagOverhead name))
    with (snd st - tagOverhead name - len b) by lia.
  cbn [snd]. by destruct (_ <=? 0).
Qed.

Lemma forRange_budget (skills : list (list ascii)) st :
  fst (fst (forRange (resolveBody sys home) skills st))
  = fst st ++ budgetBlocks (omap (loadSkill sys home) skills) (snd st).
Proof.
  revert st. induction skills as [|name0 rest IH]; intros st;
    cbn [forRange omap list_omap].
  - by rewrite app_nil_r.
  - rewrite fst_bind, resolveBody_fst.
    destruct (loadSkill sys home name0) as [[name body]|]; [|apply IH].
    unfold budgetStep. cbn [budgetBlocks]. cbv zeta.
    destruct (snd st - tagOverhead name <=? 0); [by rewrite app_nil_r|].
    cbn [snd]. destruct (_ - len _ <=? 0).
    + done.
    + rewrite IH. cbn [fst snd]. by rewrite <- app_assoc.
Qed.

Lemma budgetBlocks_total (loaded : list (list ascii * list ascii)) (remaining : Z) :
  0 <= remaining -> totalLen (budgetBlocks loaded remaining) <= remaining.
Proof.
  revert remaining. induction loaded as [|[name body] rest IH];
    intros remaining Hr; cbn [budgetBlocks totalLen]; [done|]. cbv zeta.
  destruct (remaining - tagOverhead name <=? 0) eqn:E; [done|].
  apply Z.leb_gt in E. cbn [totalLen]. rewrite len_skillBlock.
  pose proof (fitBody_len (remaining - tagOverhead name) body ltac:(lia)).
  set (r' := remaining - tagOverhead name - len _) in *.
  destruct (r' <=? 0) eqn:E'; cbn [totalLen]; [lia|].
  apply Z.leb_gt in E'. specialize (IH r' ltac:(lia)). lia.
Qed.

Lemma resolveBody_invalid (name0 : list ascii) st :
  validSkillName (strings.TrimSpace name0) = false ->
  resolveBody sys home name0 st = ret (Continue st).
Proof.
  intros H. unfold resolveBody. cbv zeta. rewrite H.
  by destruct (bool_decide _).
Qed.

Lemma findSkillFile_path name :
  fst (findSkillFile sys home name) = []
  \/ fst (findSkillFile sys home name) = codexSkillFile home name
  \/ fst (findSkillFile sys home name) = claudeSkillFile home name.
Proof.
  rewrite findSkillFile_eq.
  destruct (os_stat sys (codexSkillFile home name)); [by right; left|].
  destruct (os_stat sys (claudeSkillFile home name)); [by right; right|].
  by left.
Qed.

Lemma resolveBody_calls (name0 : list ascii) st (c : Call) :
  c ∈ snd (resolveBody sys home name0 st) ->
  validSkillName (strings.TrimSpace name0) = true
  /\ c ∈ skillCalls home (strings.TrimSpace name0).
Proof.
  destruct (validSkillName (strings.TrimSpace name0)) eqn:Hv.
  2:{ rewrite resolveBody_invalid by done. intros H.
      by apply elem_of_nil in H. }
  intros Hc. split; [done|]. revert Hc.
  unfold resolveBody. cbv zeta. rewrite Hv. cbn [negb].
  set (name := strings.TrimSpace name0).
  destruct (bool_decide (name = [])); [intros H; by apply elem_of_nil in H|].
  rewrite snd_bind. intros Hc. apply elem_of_app in Hc as [Hc|Hc].
  { apply findSkillFile_calls in Hc as [ -> | -> ]; unfold skillCalls;
      set_solver. }
  destruct (bool_decide (fst (findSkillFile sys home name) = [])) eqn:Ep;
    [by apply elem_of_nil in Hc|].
  apply bool_decide_eq_false in Ep.
  unfold os.ReadFile in Hc. rewrite bind_call in Hc. cbn [snd] in Hc.
  apply elem_of_cons in Hc as [->|Hc].
  { destruct (findSkillFile_path name) as [ ? | [ -> | -> ] ]; [done|..];
      unfold skillCalls; set_solver. }
  exfalso. revert Hc.
  destruct (os_readFile sys _) as [data|]; [|apply not_elem_of_nil].
  destruct (len data =? 0); [apply not_elem_of_nil|].
  destruct (_ <=? 0); [apply not_elem_of_nil|].
  destruct (_ <=? 0); apply not_elem_of_nil.
Qed.

Lemma forRange_valid_only (skills : list (list ascii)) st :
  forRange (resolveBody sys home) skills st
  = forRange (resolveBody sys home)
      (List.filter (fun n => validSkillName (strings.TrimSpace n)) skills) st.
Proof.
  revert st. induction skills as [|name0 rest IH]; intros st; [done|].
  cbn [List.filter].
  destruct (validSkillName (strings.TrimSpace name0)) eqn:Hv;
    cbn [forRange].
  - unfold bind. destruct (fst (resolveBody sys home name0 st)); [|done].
    by rewrite IH.
  - rewrite resolveBody_invalid by done. rewrite bind_ret. apply IH.
Qed.

Lemma forRange_calls (skills : list (list ascii)) st (c : Call) :
  c ∈ snd (forRange (resolveBody sys home) skills st) ->
  exists name0, name0 ∈ skills
    /\ validSkillName (strings.TrimSpace name0) = true
    /\ c ∈ skillCalls home (strings.TrimSpace name0).
Proof.
  revert st. induction skills as [|name0 rest IH]; intros st;
    cbn [forRange].
  - intros H. by apply elem_of_nil in H.
  - rewrite snd_bind. intros H. apply elem_of_app in H as [H|H].
    + apply resolveBody_calls in H as [Hv Hc]. exists name0.
      split; [apply list_elem_of_here | done].
    + destruct (fst (resolveBody sys home name0 st)) as [st'|st'].
      * apply IH in H as (n & Hn & Hv & Hc). exists n.
        split; [by apply list_elem_of_further | done].
      * by apply elem_of_nil in H.
Qed.

End Resolve.

Lemma resolveSections_blocks (sys : OS) (skills : list (list ascii)) (B : Z) :
  fst (resolveSections sys skills B) =
    match os_home sys with
    | Some home =>
        budgetBlocks (omap (loadSkill sys home) skills)
          (if B <=? 0 then defaultSkillBudget else B)
    | None => []
    end.
Proof.
  unfold resolveSections, os.UserHomeDir. rewrite bind_call. cbn [fst].
  destruct (os_home sys) as [home|]; [|done].
  unfold resolveLoop. rewrite fst_bind. cbn [ret fst].
  by rewrite forRange_budget.
Qed.

Lemma ResolveSkillContent_join (sys : OS) (skills : list (list ascii)) (B : Z) :
  fst (ResolveSkillContent sys skills B)
  = strings.Join (fst (resolveSections sys skills B)) [LF; LF].
Proof.
  unfold ResolveSkillContent. rewrite fst_bind. cbn [ret fst].
  by destruct (fst (resolveSections sys skills B)).
Qed.

Lemma budgetBlocks_wrapped (loaded : list (list ascii * list ascii))
    (remaining : Z) :
  Forall (fun block => exists name body, block = skillBlock name body)
    (budgetBlocks loaded remaining).
Proof.
  revert remaining. induction loaded as [|[name body] rest IH];
    intros remaining; cbn [budgetBlocks]; [constructor|]. cbv zeta.
  destruct (_ <=? 0); [constructor|]. constructor; [by eexists _, _|].
  destruct (_ <=? 0); [constructor | apply IH].
Qed.

(** C1: for a positive budget [B], the result of [ResolveSkillContent] is
    made of wrapped blocks joined by blank lines, and the lengths of the
    blocks add up to at most [B] bytes. *)
Theorem skill_blocks_within_budget (sys : OS) (skills : list (list ascii))
    (B : Z) :
  0 < B ->
  fst (ResolveSkillContent sys skills B)
  = strings.Join (fst (resolveSections sys skills B)) [LF; LF]
  /\ Forall (fun block => exists name body, block = skillBlock name body)
       (fst (resolveSections sys skills B))
  /\ totalLen (fst (resolveSections sys skills B)) <= B.
Proof.
  intros HB. split; [apply ResolveSkillContent_join|].
  rewrite resolveSections_blocks.
  destruct (os_home sys) as [home|]; [|split; [constructor | simpl; lia]].
  split; [apply budgetBlocks_wrapped|].
  destruct (B <=? 0) eqn:E; [apply Z.leb_le in E; lia|].
  apply budgetBlocks_total. lia.
Qed.

(** C3: what [ResolveSkillContent] returns is the budget rule applied to
    the loadable skills in the order requested, its blocks joined by
    blank lines.  A skill for which the remaining budget does not exceed
    its wrapping overhead ends the list; otherwise the skill is included
    with its body, cut to the room left when it is larger (the cut body
    is not empty), and the rule goes on with what remains unless nothing
    remains. *)
Theorem resolve_follows_budget_rule (sys : OS) (skills : list (list ascii))
    (B : Z) :
  fst (ResolveSkillContent sys skills B) =
    strings.Join
      match os_home sys with
      | Some home =>
          budgetBlocks (omap (loadSkill sys home) skills)
            (if B <=? 0 then defaultSkillBudget else B)
      | None => []
      end [LF; LF]
  /\ fst (resolveSections sys skills B) =
    match os_home sys with
    | Some home =>
        budgetBlocks (omap (loadSkill sys home) skills)
          (if B <=? 0 then defaultSkillBudget else B)
    | None => []
    end
  /\ (forall name body rest remaining,
        remaining <= tagOverhead name ->
        budgetBlocks ((name, body) :: rest) remaining = [])
  /\ (forall name body rest remaining,
        tagOverhead name < remaining ->
        let room := remaining - tagOverhead name in
        exists b,
          b `prefix_of` body
          /\ (len body <= room -> b = body)
          /\ (room < len body -> len b = room /\ b <> [])
          /\ budgetBlocks ((name, body) :: rest) remaining
             = skillBlock name b
                 :: (if remaining - len (skillBlock name b) <=? 0 then []
                     else budgetBlocks rest
                            (remaining - len (skillBlock name b)))).
Proof.
  split; [by rewrite ResolveSkillContent_join, resolveSections_blocks|].
  split; [apply resolveSections_blocks|]. split.
  - intros name body rest remaining H. cbn [budgetBlocks]. cbv zeta.
    destruct (_ <=? 0) eqn:E; [done|]. apply Z.leb_gt in E. lia.
  - intros name body rest remaining H room.
    exists (fitBody room body). split; [apply fitBody_prefix|].
    split; [apply fitBody_whole|]. split.
    + intros Hlt. assert (Hl : len (fitBody room body) = room).
      { apply fitBody_cut. subst room. lia. }
      split; [done|]. intros Hn. rewrite Hn in Hl. unfold len in Hl.
      simpl in Hl. subst room. lia.
    + cbn [budgetBlocks]. cbv zeta. fold room.
      destruct (room <=? 0) eqn:E; [apply Z.leb_le in E; subst room; lia|].
      rewrite len_skillBlock.
      replace (remaining - (len (fitBody room body) + tagOverhead name))
        with (room - len (fitBody room body)) by (subst room; lia).
      done.
Qed.

(** C6: a name that, once trimmed, does not match [^[a-zA-Z0-9_-]+$] is
    passed over: dropping such names from the request changes neither the
    result nor the calls made, and every file that is looked up or read
    is the [SKILL.md] of a requested name that matches. *)
Theorem invalid_names_are_skipped (sys : OS) (skills : list (list ascii))
    (B : Z) :
  ResolveSkillContent sys skills B
  = ResolveSkillContent sys
      (List.filter (fun n => validSkillName (strings.TrimSpace n)) skills) B
  /\ (forall c, c ∈ snd (ResolveSkillContent sys skills B) ->
        c = CallUserHomeDir
        \/ exists home name,
             os_home sys = Some home
             /\ name ∈ skills
             /\ validSkillName (strings.TrimSpace name) = true
             /\ c ∈ skillCalls home (strings.TrimSpace name)).
Proof.
  split.
  - unfold ResolveSkillContent, resolveSections, os.UserHomeDir.
    rewrite !bind_call. destruct (os_home sys) as [home|]; [|done].
    unfold resolveLoop. by rewrite forRange_valid_only.
  - intros c. unfold ResolveSkillContent, resolveSections, os.UserHomeDir.
    rewrite snd_bind, bind_call. cbn [snd ret]. rewrite app_nil_r.
    intros Hc. apply elem_of_cons in Hc as [->|Hc]; [by left|]. right.
    destruct (os_home sys) as [home|]; [|by apply elem_of_nil in Hc].
    unfold resolveLoop in Hc. rewrite snd_bind in Hc. cbn [snd ret] in Hc.
    rewrite app_nil_r in Hc.
    apply forRange_calls in Hc as (name & Hn & Hv & Hc).
    by exists home, name.
Qed.

(** ** Reading the prompt file *)

Section PromptFile.

Variable sys : OS.

Lemma bindE_assoc {A B C} (m : IO (result A)) (f : A -> IO (result B))
    (g : B -> IO (result C)) :
  bindE (bindE m f) g = bindE m (fun a => bindE (f a) g).
Proof.
  unfold bindE, bind. destruct m as [[a|e] t]; cbn [fst snd].
  - by rewrite app_assoc.
  - cbn [ret fst snd]. by rewrite !app_nil_r.
Qed.

Lemma bind_bindE_assoc {A B C} (m : IO A) (f : A -> IO (result B))
    (g : B -> IO (result C)) :
  bindE (bind m f) g = bind m (fun a => bindE (f a) g).
Proof. unfold bindE, bind. cbn [fst snd]. by rewrite app_assoc. Qed.

Lemma bindE_ret {A B} (a : A) (k : A -> IO (result B)) :
  bindE (ret (Ok a)) k = k a.
Proof. unfold bindE. by rewrite bind_ret. Qed.

Lemma bindE_ext {A B} (m : IO (result A)) (f g : A -> IO (result B)) :
  (forall a, f a = g a) -> bindE m f = bindE m g.
Proof.
  intros H. unfold bindE, bind. destruct m as [[a|e] t]; cbn [fst snd];
    [by rewrite H | done].
Qed.

Lemma bind_ext {A B} (m : IO A) (f g : A -> IO B) :
  (forall a, f a = g a) -> bind m f = bind m g.
Proof. intros H. unfold bind. by rewrite H. Qed.

Lemma ReadAgentPromptFile_unfold (path : list ascii) (allow : bool) :
  ReadAgentPromptFile sys path allow =
    if bool_decide (strings.TrimSpace path = []) then ret (Ok [])
    else
      let? absPath := checkedPath sys (strings.TrimSpace path) allow in
      let? data := os.ReadFile sys absPath in
      ret (Ok (strings.TrimRight data [CR; LF])).
Proof.
  unfold ReadAgentPromptFile, checkedPath. cbv zeta.
  destruct (bool_decide _); [done|].
  set (raw := strings.TrimSpace path).
  rewrite bindE_assoc. apply bindE_ext. intros expanded.
  rewrite bindE_assoc. apply bindE_ext. intros absPath.
  rewrite bind_bindE_assoc. apply bind_ext. intros home.
  rewrite bindE_assoc. apply bindE_ext. intros _.
  by rewrite bindE_ret.
Qed.

Lemma fst_bindE {A B} (m : IO (result A)) (k : A -> IO (result B)) :
  fst (bindE m k)
  = match fst m with Ok a => fst (k a) | Err e => Err e end.
Proof. unfold bindE. rewrite fst_bind. by destruct (fst m). Qed.

Lemma snd_bindE {A B} (m : IO (result A)) (k : A -> IO (result B)) :
  snd (bindE m k)
  = snd m ++ match fst m with Ok a => snd (k a) | Err e => [] end.
Proof. unfold bindE. rewrite snd_bind. by destruct (fst m). Qed.

Lemma noRead_bind {A B} (m : IO A) (k : A -> IO B) :
  noRead (snd m) -> (forall a, noRead (snd (k a))) -> noRead (snd (bind m k)).
Proof. intros Hm Hk. rewrite snd_bind. apply Forall_app. split; [done|apply Hk]. Qed.

Lemma noRead_bindE {A B} (m : IO (result A)) (k : A -> IO (result B)) :
  noRead (snd m) -> (forall a, noRead (snd (k a))) -> noRead (snd (bindE m k)).
Proof.
  intros Hm Hk. unfold bindE. apply noRead_bind; [done|].
  intros [a|e]; [apply Hk | constructor].
Qed.

Lemma noRead_ret {A} (a : A) : noRead (snd (ret a)).
Proof. constructor. Qed.

Lemma noRead_call {A} (c : Call) (a : A) : isRead c = false -> noRead (snd (call c a)).
Proof. intros H. by repeat constructor. Qed.

#[local] Hint Resolve noRead_ret noRead_call : noread.
#[local] Hint Extern 1 (isRead _ = false) => reflexivity : noread.

Lemma noRead_UserHomeDir : noRead (snd (os.UserHomeDir sys)).
Proof. unfold os.UserHomeDir. auto with noread. Qed.

Lemma noRead_Getwd : noRead (snd (os.Getwd sys)).
Proof. unfold os.Getwd. auto with noread. Qed.

Lemma noRead_EvalSymlinks (p : list ascii) : noRead (snd (EvalSymlinks sys p)).
Proof. unfold EvalSymlinks. auto with noread. Qed.

#[local] Hint Resolve noRead_UserHomeDir noRead_Getwd noRead_EvalSymlinks
  : noread.

Lemma noRead_expandHome (raw : list ascii) : noRead (snd (expandHome sys raw)).
Proof.
  unfold expandHome. destruct (needsHome raw); [|auto with noread].
  apply noRead_bindE; auto with noread.
Qed.

Lemma noRead_Abs (p : list ascii) : noRead (snd (Abs sys p)).
Proof.
  unfold Abs. destruct (filepath.IsAbs p); [auto with noread|].
  apply noRead_bindE; auto with noread.
Qed.

#[local] Hint Resolve noRead_expandHome noRead_Abs : noread.

Lemma noRead_absoluteDirs (dirs : list (list ascii)) :
  noRead (snd (absoluteDirs sys dirs)).
Proof.
  induction dirs as [|d rest IH]; cbn [absoluteDirs]; [auto with noread|].
  apply noRead_bind; [auto with noread|]. intros a.
  apply noRead_bind; auto with noread.
Qed.

Lemma noRead_resolveDirs (dirs : list (list ascii)) :
  noRead (snd (resolveDirs sys dirs)).
Proof.
  induction dirs as [|d rest IH]; cbn [resolveDirs]; [auto with noread|].
  apply noRead_bind; [auto with noread|]. intros a.
  apply noRead_bind; auto with noread.
Qed.

#[local] Hint Resolve noRead_absoluteDirs noRead_resolveDirs : noread.

Lemma noRead_checkRestricted (absPath : list ascii) (dirs : list (list ascii)) :
  noRead (snd (checkRestricted sys absPath dirs)).
Proof.
  unfold checkRestricted. destruct (negb _); [auto with noread|].
  apply noRead_bind; [auto with noread|]. intros [r|]; [|auto with noread].
  apply noRead_bind; [auto with noread|]. intros ra.
  destruct (_ && _); auto with noread.
Qed.

#[local] Hint Resolve noRead_checkRestricted : noread.

Lemma noRead_checkedPath (raw : list ascii) (allow : bool) :
  noRead (snd (checkedPath sys raw allow)).
Proof.
  unfold checkedPath.
  apply noRead_bindE; [auto with noread|]. intros expanded.
  apply noRead_bindE; [auto with noread|]. intros absPath.
  apply noRead_bind; [auto with noread|]. intros home.
  apply noRead_bindE; [|auto with noread].
  destruct home as [home|e].
  - apply noRead_bind; [auto with noread|]. intros dirs.
    destruct (negb allow); auto with noread.
  - destruct (negb allow); auto with noread.
Qed.

(** The outcome of the checks in restricted mode. *)
Lemma checkRestricted_fst (absPath : list ascii) (dirs : list (list ascii)) :
  fst (checkRestricted sys absPath dirs) =
    if negb (withinAny absPath dirs) then Err ErrOutsideAllowed
    else if escapesBySymlink sys absPath dirs then Err ErrOutsideAllowed
    else Ok tt.
Proof.
  unfold checkRestricted, escapesBySymlink, EvalSymlinks.
  destruct (negb _); [done|]. rewrite bind_call. cbn [fst].
  destruct (os_evalSymlinks sys absPath) as [r|]; [|done].
  rewrite fst_bind. cbv zeta. by destruct (_ && _).
Qed.

Lemma checkedPath_restricted (path home absPath : list ascii) :
  os_home sys = Some home ->
  promptAbsPath sys path = Ok absPath ->
  fst (checkedPath sys (strings.TrimSpace path) false) =
    if negb (withinAny absPath (promptAllowedDirs sys home))
    then Err ErrOutsideAllowed
    else if escapesBySymlink sys absPath (promptAllowedDirs sys home)
    then Err ErrOutsideAllowed
    else Ok absPath.
Proof.
  intros Hh. unfold promptAbsPath, checkedPath, promptAllowedDirs.
  rewrite !fst_bindE.
  destruct (fst (expandHome sys _)) as [expanded|e]; [|done].
  rewrite !fst_bindE.
  destruct (fst (Abs sys expanded)) as [a|e]; [|done].
  cbn [ret fst]. intros [= <-]. cbv zeta.
  rewrite fst_bind. unfold os.UserHomeDir at 1. cbn [call fst]. rewrite Hh.
  rewrite fst_bindE, fst_bind. cbn [negb].
  rewrite checkRestricted_fst.
  destruct (negb _); [done|]. by destruct (escapesBySymlink _ _ _).
Qed.

(** In restricted mode the checks pass only for a path inside an allowed
    directory that no symbolic link leads out of. *)
Lemma checkedPath_restricted_Ok (path absPath : list ascii) :
  fst (checkedPath sys (strings.TrimSpace path) false) = Ok absPath ->
  exists home,
    os_home sys = Some home
    /\ promptAbsPath sys path = Ok absPath
    /\ withinAny absPath (promptAllowedDirs sys home) = true
    /\ escapesBySymlink sys absPath (promptAllowedDirs sys home) = false.
Proof.
  intros Hok.
  destruct (os_home sys) as [home|] eqn:Hh.
  - destruct (promptAbsPath sys path) as [p|e] eqn:Hp.
    + rewrite (checkedPath_restricted path home p Hh Hp) in Hok.
      exists home. split; [done|].
      destruct (withinAny p _) eqn:Hw; [|done]. cbn [negb] in Hok.
      destruct (escapesBySymlink sys p _) eqn:He; [done|].
      injection Hok as ->. done.
    + exfalso. revert Hok Hp. unfold checkedPath, promptAbsPath.
      rewrite !fst_bindE.
      destruct (fst (expandHome sys _)) as [expanded|e']; [|done].
      rewrite !fst_bindE. by destruct (fst (Abs sys expanded)).
  - exfalso. revert Hok. unfold checkedPath. rewrite !fst_bindE.
    destruct (fst (expandHome sys _)) as [expanded|e']; [|done].
    rewrite !fst_bindE. destruct (fst (Abs sys expanded)) as [a|e']; [|done].
    rewrite fst_bind. unfold os.UserHomeDir at 1. cbn [call fst].
    rewrite Hh. by rewrite fst_bindE.
Qed.

Lemma ReadAgentPromptFile_fst (path : list ascii) (allow : bool) :
  strings.TrimSpace path <> [] ->
  fst (ReadAgentPromptFile sys path allow) =
    match fst (checkedPath sys (strings.TrimSpace path) allow) with
    | Ok absPath =>
        match os_readFile sys absPath with
        | Some data => Ok (strings.TrimRight data [CR; LF])
        | None => Err ErrReadFile
        end
    | Err e => Err e
    end.
Proof.
  intros Hraw. rewrite ReadAgentPromptFile_unfold.
  rewrite bool_decide_eq_false_2 by done. rewrite fst_bindE.
  destruct (fst (checkedPath _ _ _)) as [absPath|e]; [|done].
  rewrite fst_bindE. unfold os.ReadFile. cbn [call fst].
  by destruct (os_readFile sys absPath).
Qed.

Lemma ReadAgentPromptFile_snd (path : list ascii) (allow : bool) :
  strings.TrimSpace path <> [] ->
  snd (ReadAgentPromptFile sys path allow) =
    snd (checkedPath sys (strings.TrimSpace path) allow)
    ++ match fst (checkedPath sys (strings.TrimSpace path) allow) with
       | Ok absPath => [CallReadFile absPath]
       | Err e => []
       end.
Proof.
  intros Hraw. rewrite ReadAgentPromptFile_unfold.
  rewrite bool_decide_eq_false_2 by done. rewrite snd_bindE.
  destruct (fst (checkedPath _ _ _)) as [absPath|e]; [|done].
  rewrite snd_bindE. unfold os.ReadFile. cbn [call fst snd].
  by destruct (os_readFile sys absPath).
Qed.

(** X3: a restricted read that succeeds has read a file inside an allowed
    directory that no symbolic link leads out of: the home directory is
    known, the cleaned absolute path is within an allowed directory, and
    the result is that file's content without its final carriage returns
    and line feeds. *)
Lemma restricted_read_Ok (path content : list ascii) :
  strings.TrimSpace path <> [] ->
  fst (ReadAgentPromptFile sys path false) = Ok content ->
  exists home absPath data,
    os_home sys = Some home
    /\ promptAbsPath sys path = Ok absPath
    /\ withinAny absPath (promptAllowedDirs sys home) = true
    /\ escapesBySymlink sys absPath (promptAllowedDirs sys home) = false
    /\ os_readFile sys absPath = Some data
    /\ content = strings.TrimRight data [CR; LF].
Proof.
  intros Hraw Hok. rewrite ReadAgentPromptFile_fst in Hok by done.
  destruct (fst (checkedPath _ _ _)) as [absPath|e] eqn:Hc; [|done].
  apply checkedPath_restricted_Ok in Hc as (home & Hh & Hp & Hw & He).
  destruct (os_readFile sys absPath) as [data|] eqn:Hd; [|done].
  injection Hok as <-. by exists home, absPath, data.
Qed.

End PromptFile.

(** ** Blank paths and trailing line ends *)

Lemma leading_space_app (w s : list ascii) :
  w ∈ strings.white_space -> strings.leading_space (w ++ s) = length w.
Proof.
  intros H. unfold strings.white_space in H. cbn [map] in H.
  repeat (apply elem_of_cons in H as [->|H]; [vm_compute; reflexivity|]).
  by apply elem_of_nil in H.
Qed.

Lemma white_space_length (w : list ascii) :
  w ∈ strings.white_space -> (1 <= length w)%nat.
Proof.
  intros H. unfold strings.white_space in H. cbn [map] in H.
  repeat (apply elem_of_cons in H as [->|H]; [simpl; lia|]).
  by apply elem_of_nil in H.
Qed.

Lemma trim_left_onlySpace (s : list ascii) (n : nat) :
  onlySpace s -> (length s <= n)%nat -> strings.trim_left n s = [].
Proof.
  intros Hs. revert n. induction Hs as [|w s Hw Hs IH]; intros n Hn.
  - by destruct n.
  - pose proof (white_space_length w Hw) as Hl.
    rewrite length_app in Hn. destruct n as [|n]; [lia|].
    cbn [strings.trim_left]. rewrite leading_space_app by done.
    destruct (length w) as [|k] eqn:E; [lia|]. rewrite <- E.
    rewrite drop_app_length. apply IH. lia.
Qed.

Lemma TrimSpace_onlySpace (s : list ascii) :
  onlySpace s -> strings.TrimSpace s = [].
Proof.
  intros Hs. unfold strings.TrimSpace.
  by rewrite trim_left_onlySpace.
Qed.

Lemma drop_while_split (f : ascii -> bool) (s : list ascii) :
  exists pre,
    s = pre ++ strings.drop_while f s
    /\ Forall (fun c => f c = true) pre
    /\ (forall c, head (strings.drop_while f s) = Some c -> f c = false).
Proof.
  induction s as [|c s (pre & Heq & Hpre & Hhd)]; cbn [strings.drop_while].
  - exists []. split; [done|]. split; [constructor|done].
  - destruct (f c) eqn:E.
    + exists (c :: pre). split; [simpl; by f_equal|].
      split; [by constructor | done].
    + exists []. split; [done|]. split; [constructor|].
      intros c' [= <-]. done.
Qed.

(** [TrimRight] takes a run of cut-set bytes off the end, and all of it. *)
Lemma TrimRight_split (s cutset : list ascii) :
  exists tail,
    s = strings.TrimRight s cutset ++ tail
    /\ Forall (fun c => c ∈ cutset) tail
    /\ (forall c, last (strings.TrimRight s cutset) = Some c -> c ∉ cutset).
Proof.
  unfold strings.TrimRight.
  destruct (drop_while_split (strings.in_cutset cutset) (reverse s))
    as (pre & Heq & Hpre & Hhd).
  exists (reverse pre). split; [|split].
  - rewrite <- reverse_app, <- Heq. by rewrite reverse_involutive.
  - apply Forall_reverse. eapply Forall_impl; [exact Hpre|].
    intros c Hc. by apply bool_decide_eq_true in Hc.
  - intros c Hc. rewrite last_reverse in Hc. apply Hhd in Hc.
    by apply bool_decide_eq_false in Hc.
Qed.

(** C10: a path made of white space only gives the empty string and no
    error, without any call to the system, whatever the flag; and when a
    file is read and returned, the result is the file's content without
    the carriage returns and line feeds at its end. *)
Theorem blank_path_and_trimmed_content (sys : OS) (path : list ascii)
    (allow : bool) :
  (onlySpace path -> ReadAgentPromptFile sys path allow = (Ok [], []))
  /\ (forall content,
        fst (ReadAgentPromptFile sys path allow) = Ok content ->
        strings.TrimSpace path <> [] ->
        exists absPath data tail,
          last (snd (ReadAgentPromptFile sys path allow))
            = Some (CallReadFile absPath)
          /\ os_readFile sys absPath = Some data
          /\ data = content ++ tail
          /\ Forall (fun c => c = CR \/ c = LF) tail
          /\ (forall c, last content = Some c -> c <> CR /\ c <> LF)).
Proof.
  split.
  - intros Hs. unfold ReadAgentPromptFile. cbv zeta.
    by rewrite TrimSpace_onlySpace.
  - intros content Hok Hraw.
    rewrite ReadAgentPromptFile_fst in Hok by done.
    rewrite ReadAgentPromptFile_snd by done.
    destruct (fst (checkedPath _ _ _)) as [absPath|e]; [|done].
    destruct (os_readFile sys absPath) as [data|] eqn:Hd; [|done].
    injection Hok as <-.
    destruct (TrimRight_split data [CR; LF]) as (tail & Heq & Htail & Hlast).
    exists absPath, data, tail. split; [apply last_snoc|].
    split; [done|]. split; [done|]. split.
    + eapply Forall_impl; [exact Htail|]. intros c Hc.
      apply elem_of_cons in Hc as [->|Hc]; [by left|].
      apply list_elem_of_singleton in Hc as ->. by right.
    + intros c Hc. apply Hlast in Hc. split; intros ->; apply Hc; set_solver.
Qed.

(** C2, as stated, fails in its second half.  [~/.claude/link.md] is a
    readable file whose cleaned absolute path is inside [~/.claude], and
    the restricted read is refused, because the link leads out of the
    allowed directories; and [~/.claude/prompt.md] is returned without the
    line feed that ends the file. *)
Lemma restricted_read_not_file_contents :
  (promptAbsPath demoOS (lit "~/.claude/link.md")
     = Ok (lit "/home/u/.claude/link.md")
   /\ withinAny (lit "/home/u/.claude/link.md")
        (promptAllowedDirs demoOS (lit "/home/u")) = true
   /\ os_readFile demoOS (lit "/home/u/.claude/link.md")
        = Some (lit "SECRET" ++ [LF])
   /\ fst (ReadAgentPromptFile demoOS (lit "~/.claude/link.md") false)
        = Err ErrOutsideAllowed)
  /\ (os_readFile demoOS (lit "/home/u/.claude/prompt.md")
        = Some (lit "OK" ++ [LF])
      /\ fst (ReadAgentPromptFile demoOS (lit "~/.claude/prompt.md") false)
         = Ok (lit "OK")
      /\ fst (ReadAgentPromptFile demoOS (lit "~/.claude/prompt.md") false)
         <> Ok (lit "OK" ++ [LF])).
Proof.
  split; [repeat split; vm_compute; reflexivity|].
  split; [vm_compute; reflexivity|].
  split; [vm_compute; reflexivity|].
  vm_compute. discriminate.
Qed.

(** C2, amended: in restricted mode, a non-blank path whose cleaned
    absolute form is outside [~/.claude], [~/.codex] and
    [~/.codeagent/agents] gives an error and no file is read; so does a
    path inside one of them that resolves, through symbolic links, to a
    place outside the resolved allowed directories; any other path inside
    one of them is read, and a readable file gives its content without
    the carriage returns and line feeds at its end.  Inside and outside
    are what [isWithinDir] decides, which on cleaned absolute paths is the
    prefix order on path elements ([withinAny_prefix]). *)
Theorem restricted_read (sys : OS) (path home absPath : list ascii) :
  strings.TrimSpace path <> [] ->
  os_home sys = Some home ->
  promptAbsPath sys path = Ok absPath ->
  let dirs := promptAllowedDirs sys home in
  let r := ReadAgentPromptFile sys path false in
  (withinAny absPath dirs = false ->
     fst r = Err ErrOutsideAllowed /\ noRead (snd r))
  /\ (withinAny absPath dirs = true ->
      escapesBySymlink sys absPath dirs = true ->
      fst r = Err ErrOutsideAllowed /\ noRead (snd r))
  /\ (withinAny absPath dirs = true ->
      escapesBySymlink sys absPath dirs = false ->
      fst r = match os_readFile sys absPath with
              | Some data => Ok (strings.TrimRight data [CR; LF])
              | None => Err ErrReadFile
              end
      /\ last (snd r) = Some (CallReadFile absPath)).
Proof.
  intros Hraw Hh Habs dirs r. subst r.
  rewrite ReadAgentPromptFile_fst, ReadAgentPromptFile_snd by done.
  pose proof (noRead_checkedPath sys (strings.TrimSpace path) false) as Hnr.
  rewrite (checkedPath_restricted sys path home absPath Hh Habs).
  fold dirs. split; [|split].
  - intros ->. cbn [negb]. split; [done|]. by rewrite app_nil_r.
  - intros -> ->. cbn [negb]. split; [done|]. by rewrite app_nil_r.
  - intros -> ->. cbn [negb]. split; [done|]. apply last_snoc.
Qed.

(** ** Concrete runs *)

(** [TestResolveSkillContent_PrefersCodexOverClaude] *)
Example resolve_prefers_codex :
  ResolveSkillContent skillsOS [lit "dup-skill"] 0
  = (skillBlock (lit "dup-skill")
       (lit "# Codex Version" ++ [LF] ++ lit "Use codex copy."),
     [ CallUserHomeDir;
       CallStat (lit "/home/u/.codex/skills/dup-skill/SKILL.md");
       CallReadFile (lit "/home/u/.codex/skills/dup-skill/SKILL.md") ]).
Proof. vm_compute. reflexivity. Qed.

(** [TestResolveSkillContent_Budget] *)
Example resolve_big_skill :
  len (fst (ResolveSkillContent skillsOS [lit "big-skill"] 200)) = 200.
Proof. vm_compute. reflexivity. Qed.

(** [TestResolveSkillContent_PathTraversal]: the name is never turned into
    a path. *)
Example resolve_path_traversal :
  ResolveSkillContent skillsOS [lit "../../../etc/passwd"] 0
  = ([], [CallUserHomeDir]).
Proof. vm_compute. reflexivity. Qed.

(** The budget bounds the blocks, not the text that joins them: two
    blocks of 534 and 65 bytes fit a budget of 600, and the result, with
    the blank line between them, has 601 bytes. *)
Example joined_result_exceeds_budget :
  map len (fst (resolveSections skillsOS [lit "big-skill"; lit "dup-skill"] 600))
  = [534; 65]
  /\ len (fst (ResolveSkillContent skillsOS
                 [lit "big-skill"; lit "dup-skill"] 600)) = 601.
Proof. split; vm_compute; reflexivity. Qed.

(** [TestDetectProjectSkills_FullStack] with two of the skills installed. *)
Example detect_work :
  fst (DetectProjectSkills skillsOS (lit "/work"))
  = [lit "golang-base-practices"; lit "frontend-design"].
Proof. vm_compute. reflexivity. Qed.

(** [TestReadAgentPromptFile_RestrictedRejectsTraversal] *)
Example read_rejects_traversal :
  ReadAgentPromptFile demoOS (lit "~/.claude/../prompt.md") false
  = (Err ErrOutsideAllowed, [CallUserHomeDir; CallUserHomeDir]).
Proof. vm_compute. reflexivity. Qed.

Lemma findSkillFile_codex_first_witness :
  loadSkill skillsOS (lit "/home/u") (lit " dup-skill ")
  = Some (lit "dup-skill", lit "# Codex Version" ++ [LF] ++ lit "Use codex copy.").
Proof.
  destruct (findSkillFile_codex_first skillsOS (lit "/home/u")
              (lit " dup-skill ")) as [_ H].
  rewrite H; vm_compute; reflexivity.
Defined.

(** Stripping a text without front matter twice. *)
Lemma strip_twice_iff_witness :
  stripYAMLFrontmatter (stripYAMLFrontmatter (lit "# Body"))
  = stripYAMLFrontmatter (lit "# Body").
Proof.
  apply (strip_twice_iff (lit "# Body")).
  split; vm_compute; reflexivity.
Defined.

Lemma skill_blocks_within_budget_witness :
  0 < 200
  /\ fst (ResolveSkillContent skillsOS [lit "big-skill"] 200)
     = strings.Join (fst (resolveSections skillsOS [lit "big-skill"] 200))
         [LF; LF]
  /\ Forall (fun block => exists name body, block = skillBlock name body)
       (fst (resolveSections skillsOS [lit "big-skill"] 200))
  /\ totalLen (fst (resolveSections skillsOS [lit "big-skill"] 200)) <= 200.
Proof.
  split; [lia|].
  apply (skill_blocks_within_budget skillsOS [lit "big-skill"] 200). lia.
Defined.

Lemma resolve_follows_budget_rule_witness :
  fst (ResolveSkillContent skillsOS
         [lit "dup-skill"; lit "big-skill"; lit "frontend-design"] 200)
  = skillBlock (lit "dup-skill")
      (lit "# Codex Version" ++ [LF] ++ lit "Use codex copy.")
    ++ [LF; LF] ++ skillBlock (lit "big-skill") (replicate 101 (byte 120))
  /\ fst (resolveSections skillsOS
            [lit "dup-skill"; lit "big-skill"; lit "frontend-design"] 200)
     = budgetBlocks
         (omap (loadSkill skillsOS (lit "/home/u"))
            [lit "dup-skill"; lit "big-skill"; lit "frontend-design"]) 200
  /\ budgetBlocks [(lit "frontend-design", lit "# frontend")] 40 = []
  /\ exists b,
       b `prefix_of` replicate 500 (byte 120)
       /\ (len (replicate 500 (byte 120)) <= 135 - tagOverhead (lit "big-skill")
           -> b = replicate 500 (byte 120))
       /\ (135 - tagOverhead (lit "big-skill") < len (replicate 500 (byte 120))
           -> len b = 135 - tagOverhead (lit "big-skill") /\ b <> [])
       /\ budgetBlocks
            [(lit "big-skill", replicate 500 (byte 120));
             (lit "frontend-design", lit "# frontend")] 135
          = skillBlock (lit "big-skill") b
              :: (if 135 - len (skillBlock (lit "big-skill") b) <=? 0 then []
                  else budgetBlocks [(lit "frontend-design", lit "# frontend")]
                         (135 - len (skillBlock (lit "big-skill") b))).
Proof.
  destruct (resolve_follows_budget_rule skillsOS
              [lit "dup-skill"; lit "big-skill"; lit "frontend-design"] 200)
    as (Hres & Hsec & Hstop & Hin).
  split; [|split; [|split]].
  - etrans; [exact Hres|]. vm_compute. reflexivity.
  - exact Hsec.
  - apply Hstop. vm_compute. discriminate.
  - apply (Hin (lit "big-skill") (replicate 500 (byte 120))
             [(lit "frontend-design", lit "# frontend")] 135).
    vm_compute. reflexivity.
Defined.

Lemma invalid_names_are_skipped_witness :
  CallReadFile (lit "/home/u/.codex/skills/dup-skill/SKILL.md")
  = CallUserHomeDir
  \/ exists home name,
       os_home skillsOS = Some home
       /\ name ∈ [lit "../bad"; lit " dup-skill "]
       /\ validSkillName (strings.TrimSpace name) = true
       /\ CallReadFile (lit "/home/u/.codex/skills/dup-skill/SKILL.md")
          ∈ skillCalls home (strings.TrimSpace name).
Proof.
  destruct (invalid_names_are_skipped skillsOS
              [lit "../bad"; lit " dup-skill "] 0) as [_ H].
  apply H. vm_compute. do 2 apply list_elem_of_further.
  apply list_elem_of_here.
Defined.

Lemma no_fingerprint_in_empty :
  forall entry f, entry ∈ techSkillMap -> f ∈ Files entry ->
    os_stat skillsOS (filepath.Join [lit "/empty"; f]) = false.
Proof.
  assert (H : forallb (fun entry =>
                forallb (fun f =>
                  negb (os_stat skillsOS (filepath.Join [lit "/empty"; f])))
                  (Files entry)) techSkillMap = true)
    by (vm_compute; reflexivity).
  intros entry f He Hf. apply list_elem_of_In in He, Hf.
  rewrite forallb_forall in H. specialize (H entry He).
  rewrite forallb_forall in H. specialize (H f Hf).
  by apply negb_true_iff in H.
Defined.

Lemma DetectProjectSkills_installed_witness :
  (exists home,
     os_home skillsOS = Some home
     /\ installed skillsOS home (lit "frontend-design"))
  /\ fst (DetectProjectSkills skillsOS (lit "/empty")) = []
  /\ fst (DetectProjectSkills homelessOS (lit "/work")) = [].
Proof.
  split; [|split].
  - destruct (DetectProjectSkills_installed skillsOS (lit "/work"))
      as (H & _ & _).
    apply H. vm_compute. apply list_elem_of_further, list_elem_of_here.
  - destruct (DetectProjectSkills_installed skillsOS (lit "/empty"))
      as (_ & H & _).
    apply H, no_fingerprint_in_empty.
  - destruct (DetectProjectSkills_installed homelessOS (lit "/work"))
      as (_ & _ & H).
    apply H. reflexivity.
Defined.

Lemma three_spaces : onlySpace (lit "   ").
Proof.
  change (lit "   ") with ([byte 32] ++ [byte 32] ++ [byte 32] ++ []).
  repeat (apply onlySpace_app;
          [do 5 apply list_elem_of_further; apply list_elem_of_here|]).
  apply onlySpace_nil.
Defined.

Lemma blank_path_and_trimmed_content_witness :
  ReadAgentPromptFile demoOS (lit "   ") true = (Ok [], [])
  /\ exists absPath data tail,
       last (snd (ReadAgentPromptFile demoOS (lit "~/.claude/prompt.md") false))
         = Some (CallReadFile absPath)
       /\ os_readFile demoOS absPath = Some data
       /\ data = lit "OK" ++ tail
       /\ Forall (fun c => c = CR \/ c = LF) tail
       /\ (forall c, last (lit "OK") = Some c -> c <> CR /\ c <> LF).
Proof.
  split.
  - destruct (blank_path_and_trimmed_content demoOS (lit "   ") true)
      as [H _].
    apply H, three_spaces.
  - destruct (blank_path_and_trimmed_content demoOS
                (lit "~/.claude/prompt.md") false) as [_ H].
    apply H.
    + vm_compute. reflexivity.
    + vm_compute. discriminate.
Defined.

Lemma restricted_read_witness :
  (fst (ReadAgentPromptFile demoOS (lit "~/prompt.md") false)
     = Err ErrOutsideAllowed
   /\ noRead (snd (ReadAgentPromptFile demoOS (lit "~/prompt.md") false)))
  /\ (fst (ReadAgentPromptFile demoOS (lit "~/.claude/link.md") false)
        = Err ErrOutsideAllowed
      /\ noRead (snd (ReadAgentPromptFile demoOS (lit "~/.claude/link.md")
                        false)))
  /\ (fst (ReadAgentPromptFile demoOS (lit "~/.claude/prompt.md") false)
        = match os_readFile demoOS (lit "/home/u/.claude/prompt.md") with
          | Some data => Ok (strings.TrimRight data [CR; LF])
          | None => Err ErrReadFile
          end
      /\ last (snd (ReadAgentPromptFile demoOS (lit "~/.claude/prompt.md")
                      false))
         = Some (CallReadFile (lit "/home/u/.claude/prompt.md"))).
Proof.
  split; [|split].
  - assert (H1 : strings.TrimSpace (lit "~/prompt.md") <> [])
      by (vm_compute; discriminate).
    assert (H2 : promptAbsPath demoOS (lit "~/prompt.md")
                 = Ok (lit "/home/u/prompt.md"))
      by (vm_compute; reflexivity).
    destruct (restricted_read demoOS (lit "~/prompt.md") (lit "/home/u")
                (lit "/home/u/prompt.md") H1 eq_refl H2) as (H & _ & _).
    apply H. vm_compute. reflexivity.
  - assert (H1 : strings.TrimSpace (lit "~/.claude/link.md") <> [])
      by (vm_compute; discriminate).
    assert (H2 : promptAbsPath demoOS (lit "~/.claude/link.md")
                 = Ok (lit "/home/u/.claude/link.md"))
      by (vm_compute; reflexivity).
    destruct (restricted_read demoOS (lit "~/.claude/link.md") (lit "/home/u")
                (lit "/home/u/.claude/link.md") H1 eq_refl H2)
      as (_ & H & _).
    apply H; vm_compute; reflexivity.
  - assert (H1 : strings.TrimSpace (lit "~/.claude/prompt.md") <> [])
      by (vm_compute; discriminate).
    assert (H2 : promptAbsPath demoOS (lit "~/.claude/prompt.md")
                 = Ok (lit "/home/u/.claude/prompt.md"))
      by (vm_compute; reflexivity).
    destruct (restricted_read demoOS (lit "~/.claude/prompt.md")
                (lit "/home/u") (lit "/home/u/.claude/prompt.md")
                H1 eq_refl H2) as (_ & _ & H).
    apply H; vm_compute; reflexivity.
Defined.

(** * Further properties *)

(** ** The prompt file, unrestricted and without a home directory *)

Section PromptFileModes.

Variable sys : OS.

Lemma envOnly_bind {A B} (m : IO A) (k : A -> IO B) :
  Forall (fun c => isEnv c = true) (snd m) ->
  (forall a, Forall (fun c => isEnv c = true) (snd (k a))) ->
  Forall (fun c => isEnv c = true) (snd (bind m k)).
Proof.
  intros Hm Hk. rewrite snd_bind. apply Forall_app. split; [done|apply Hk].
Qed.

Lemma envOnly_bindE {A B} (m : IO (result A)) (k : A -> IO (result B)) :
  Forall (fun c => isEnv c = true) (snd m) ->
  (forall a, Forall (fun c => isEnv c = true) (snd (k a))) ->
  Forall (fun c => isEnv c = true) (snd (bindE m k)).
Proof.
  intros Hm Hk. unfold bindE. apply envOnly_bind; [done|].
  intros [a|e]; [apply Hk | constructor].
Qed.

Lemma envOnly_expandHome (raw : list ascii) :
  Forall (fun c => isEnv c = true) (snd (expandHome sys raw)).
Proof.
  unfold expandHome. destruct (needsHome raw); [|constructor].
  apply envOnly_bindE; [by repeat constructor|]. intros. constructor.
Qed.

Lemma envOnly_Abs (p : list ascii) :
  Forall (fun c => isEnv c = true) (snd (Abs sys p)).
Proof.
  unfold Abs. destruct (filepath.IsAbs p); [constructor|].
  apply envOnly_bindE; [by repeat constructor|]. intros. constructor.
Qed.

Lemma envOnly_absoluteDirs (dirs : list (list ascii)) :
  Forall (fun c => isEnv c = true) (snd (absoluteDirs sys dirs)).
Proof.
  induction dirs as [|d rest IH]; cbn [absoluteDirs]; [constructor|].
  apply envOnly_bind; [apply envOnly_Abs|]. intros a.
  apply envOnly_bind; [done|]. intros. constructor.
Qed.

Lemma envOnly_checkedPath (raw : list ascii) :
  Forall (fun c => isEnv c = true) (snd (checkedPath sys raw true)).
Proof.
  unfold checkedPath.
  apply envOnly_bindE; [apply envOnly_expandHome|]. intros expanded.
  apply envOnly_bindE; [apply envOnly_Abs|]. intros absPath.
  apply envOnly_bind; [by repeat constructor|]. intros home.
  apply envOnly_bindE; [|intros; constructor].
  destruct home as [home|e]; cbn [negb]; [|constructor].
  apply envOnly_bind; [apply envOnly_absoluteDirs|]. intros. constructor.
Qed.

Lemma checkedPath_unrestricted (path absPath : list ascii) :
  promptAbsPath sys path = Ok absPath ->
  fst (checkedPath sys (strings.TrimSpace path) true) = Ok absPath.
Proof.
  unfold promptAbsPath, checkedPath. rewrite !fst_bindE.
  destruct (fst (expandHome sys _)) as [expanded|e]; [|done].
  rewrite !fst_bindE.
  destruct (fst (Abs sys expanded)) as [a|e]; [|done].
  cbn [ret fst]. intros [= <-]. cbv zeta.
  rewrite fst_bind, fst_bindE. cbn [negb].
  destruct (fst (os.UserHomeDir sys)) as [home|e]; [|done].
  by rewrite fst_bind.
Qed.

(** X1: with [allowOutsideClaudeDir] the file at the cleaned absolute path
    is read wherever it lies, also when the home directory is unknown:
    before the read only the home and the working directory are asked
    for, no symbolic link is resolved, and the result is the file's
    content without its final carriage returns and line feeds, or the
    read error. *)
Theorem unrestricted_read (path absPath : list ascii) :
  strings.TrimSpace path <> [] ->
  promptAbsPath sys path = Ok absPath ->
  fst (ReadAgentPromptFile sys path true)
  = match os_readFile sys absPath with
    | Some data => Ok (strings.TrimRight data [CR; LF])
    | None => Err ErrReadFile
    end
  /\ exists before,
       snd (ReadAgentPromptFile sys path true)
       = before ++ [CallReadFile absPath]
       /\ Forall (fun c => isEnv c = true) before.
Proof.
  intros Hraw Habs.
  rewrite ReadAgentPromptFile_fst, ReadAgentPromptFile_snd by done.
  rewrite (checkedPath_unrestricted path absPath Habs). split; [done|].
  eexists. split; [reflexivity | apply envOnly_checkedPath].
Qed.

(** X2: in restricted mode nothing is read when the home directory is
    unknown: every non-blank path gives an error. *)
Theorem restricted_needs_home (path : list ascii) :
  strings.TrimSpace path <> [] ->
  os_home sys = None ->
  (exists e, fst (ReadAgentPromptFile sys path false) = Err e)
  /\ noRead (snd (ReadAgentPromptFile sys path false)).
Proof.
  intros Hraw Hh.
  rewrite ReadAgentPromptFile_fst, ReadAgentPromptFile_snd by done.
  pose proof (noRead_checkedPath sys (strings.TrimSpace path) false) as Hnr.
  destruct (fst (checkedPath sys _ false)) as [absPath|e] eqn:Hc.
  - apply checkedPath_restricted_Ok in Hc as (home & Hh' & _). congruence.
  - split; [by exists e | by rewrite app_nil_r].
Qed.

End PromptFileModes.

(** ** What [stripYAMLFrontmatter] removes *)

Section FrontmatterContent.

Implicit Types s a meta gap body rest : list ascii.

Local Abbreviation fence := (LF :: lit "---") (only parsing).

(** A fence cannot start in [a] and end in a fence that follows [a]. *)
Lemma HasPrefix_fence_app c a rest :
  strings.HasPrefix (c :: a) fence = false ->
  strings.HasPrefix ((c :: a) ++ fence ++ rest) fence = false.
Proof.
  intros H. destruct a as [|x [|y [|z a]]]; cbn in *; [..|exact H];
    repeat match goal with
           | |- context [bool_decide (?v = ?b)] =>
               is_var v; destruct (bool_decide (v = b))
           end; reflexivity.
Qed.

Lemma Index_before_fence a rest :
  strings.Index a fence < 0 ->
  strings.Index (a ++ fence ++ rest) fence = len a.
Proof.
  induction a as [|c a IH]; intros H.
  - change ([] ++ fence ++ rest) with (LF :: (lit "---" ++ rest)).
    rewrite Index_cons.
    change (LF :: lit "---" ++ rest) with (fence ++ rest).
    by rewrite HasPrefix_app.
  - rewrite Index_cons in H.
    destruct (strings.HasPrefix (c :: a) fence) eqn:Hp; [lia|].
    destruct (strings.Index a fence <? 0) eqn:Hi; [|lia].
    apply Z.ltb_lt in Hi. specialize (IH Hi).
    change ((c :: a) ++ fence ++ rest) with (c :: (a ++ fence ++ rest)).
    rewrite Index_cons.
    change (c :: (a ++ fence ++ rest)) with ((c :: a) ++ fence ++ rest).
    rewrite HasPrefix_fence_app by done. rewrite IH.
    pose proof (len_nonneg a).
    destruct (len a <? 0) eqn:E; [apply Z.ltb_lt in E; lia|].
    unfold len. cbn [length]. lia.
Qed.

Lemma find_None_forall {A} (f : A -> bool) (l : list A) :
  List.find f l = None <-> forall x, x ∈ l -> f x = false.
Proof.
  induction l as [|y l IH]; cbn [List.find].
  - split; [intros _ x Hx; by apply elem_of_nil in Hx | done].
  - destruct (f y) eqn:E.
    + split; [done|]. intros H. rewrite H in E; [done|apply list_elem_of_here].
    + rewrite IH. split.
      * intros H x Hx. apply elem_of_cons in Hx as [->|Hx]; [done|by apply H].
      * intros H x Hx. apply H. by apply list_elem_of_further.
Qed.

Lemma find_Some_elem {A} (f : A -> bool) (l : list A) (x : A) :
  List.find f l = Some x -> x ∈ l /\ f x = true.
Proof.
  induction l as [|y l IH]; cbn [List.find]; [done|].
  destruct (f y) eqn:E.
  - intros [= <-]. split; [apply list_elem_of_here | done].
  - intros H. apply IH in H as [H1 H2]. split; [by apply list_elem_of_further|done].
Qed.

Lemma leading_space_0 s :
  strings.leading_space s = O
  <-> forall w, w ∈ strings.white_space -> strings.HasPrefix s w = false.
Proof.
  unfold strings.leading_space. rewrite <- find_None_forall.
  destruct (List.find _ _) as [w|] eqn:E; [|done].
  apply find_Some_elem in E as [Hw _]. apply white_space_length in Hw.
  split; [lia | done].
Qed.

Lemma trailing_space_0 s :
  strings.trailing_space s = O
  <-> forall w, w ∈ strings.white_space -> strings.HasSuffix s w = false.
Proof.
  unfold strings.trailing_space. rewrite <- find_None_forall.
  destruct (List.find _ _) as [w|] eqn:E; [|done].
  apply find_Some_elem in E as [Hw _]. apply white_space_length in Hw.
  split; [lia | done].
Qed.

Lemma leading_space_prefix s p :
  p `prefix_of` s -> strings.leading_space s = O -> strings.leading_space p = O.
Proof.
  rewrite !leading_space_0. intros Hp H w Hw.
  apply not_true_iff_false. intros Hpw. apply HasPrefix_prefix in Hpw.
  specialize (H w Hw). apply not_true_iff_false in H. apply H.
  apply HasPrefix_prefix. by etrans.
Qed.

Lemma trim_left_done n s :
  (length s <= n)%nat -> strings.leading_space (strings.trim_left n s) = O.
Proof.
  revert s. induction n as [|n IH]; intros s Hn; cbn [strings.trim_left].
  - destruct s; [reflexivity | simpl in Hn; lia].
  - destruct (strings.leading_space s) as [|k] eqn:E; [done|].
    apply IH. rewrite length_drop. lia.
Qed.

Lemma trim_right_done n s :
  (length s <= n)%nat -> strings.trailing_space (strings.trim_right n s) = O.
Proof.
  revert s. induction n as [|n IH]; intros s Hn; cbn [strings.trim_right].
  - destruct s; [reflexivity | simpl in Hn; lia].
  - destruct (strings.trailing_space s) as [|k] eqn:E; [done|].
    apply IH. rewrite length_take. lia.
Qed.

Lemma trim_right_prefix n s : strings.trim_right n s `prefix_of` s.
Proof.
  revert s. induction n as [|n IH]; intros s; cbn [strings.trim_right]; [done|].
  destruct (strings.trailing_space s); [done|].
  etrans; [apply IH | apply prefix_take].
Qed.

(** [TrimSpace] does its job: nothing is left to trim. *)
Lemma TrimSpace_trimmed s : trimmed (strings.TrimSpace s).
Proof.
  unfold strings.TrimSpace, trimmed. cbv zeta. split.
  - eapply leading_space_prefix; [apply trim_right_prefix|].
    by apply trim_left_done.
  - by apply trim_right_done.
Qed.

Lemma trim_left_trimmed n s :
  strings.leading_space s = O -> strings.trim_left n s = s.
Proof. intros H. destruct n; cbn [strings.trim_left]; [done|]. by rewrite H. Qed.

Lemma trim_right_trimmed n s :
  strings.trailing_space s = O -> strings.trim_right n s = s.
Proof. intros H. destruct n; cbn [strings.trim_right]; [done|]. by rewrite H. Qed.

Lemma trim_left_gap gap body n :
  onlySpace gap -> (length gap <= n)%nat ->
  strings.leading_space body = O ->
  strings.trim_left n (gap ++ body) = body.
Proof.
  intros Hg. revert n. induction Hg as [|w g Hw Hg IH]; intros n Hn Hb.
  - by apply trim_left_trimmed.
  - pose proof (white_space_length w Hw) as Hl.
    rewrite length_app in Hn. destruct n as [|n]; [lia|].
    cbn [strings.trim_left]. rewrite <- app_assoc.
    rewrite leading_space_app by done.
    destruct (length w) as [|k] eqn:E; [lia|]. rewrite <- E.
    rewrite drop_app_length. apply IH; [lia|done].
Qed.

Lemma TrimSpace_gap gap body :
  onlySpace gap -> trimmed body -> strings.TrimSpace (gap ++ body) = body.
Proof.
  intros Hg [Hl Ht]. unfold strings.TrimSpace. cbv zeta.
  rewrite trim_left_gap; [|done|rewrite length_app; lia|done].
  by apply trim_right_trimmed.
Qed.

(** A white-space rune that starts with a line feed is the line feed. *)
Lemma white_space_LF w rest :
  w ∈ strings.white_space -> (exists r, w ++ rest = LF :: r) -> w = [LF].
Proof.
  intros H [r Hr]. unfold strings.white_space in H. cbn [map] in H.
  repeat (apply elem_of_cons in H as [->|H];
          [first [reflexivity | exfalso; vm_compute in Hr; discriminate Hr]|]).
  by apply elem_of_nil in H.
Qed.

Lemma strip_tail gap body :
  onlySpace gap -> trimmed body ->
  strings.TrimSpace
    match gap ++ body with
    | c :: r => if bool_decide (c = LF) then r else gap ++ body
    | [] => gap ++ body
    end = body.
Proof.
  intros Hg Hb.
  destruct (gap ++ body) as [|c r] eqn:E.
  { rewrite <- E. by apply TrimSpace_gap. }
  destruct (bool_decide (c = LF)) eqn:Ec.
  2:{ rewrite <- E. by apply TrimSpace_gap. }
  apply bool_decide_eq_true in Ec as ->.
  destruct Hg as [|w g Hw Hg].
  - exfalso. rewrite app_nil_l in E. subst body. destruct Hb as [Hl _].
    pose proof (leading_space_app [LF] r) as H1. cbn [app length] in H1.
    rewrite H1 in Hl; [done|].
    apply list_elem_of_further, list_elem_of_here.
  - rewrite <- app_assoc in E.
    assert (w = [LF]) as -> by (eapply white_space_LF; eauto).
    cbn [app] in E. injection E as <-. by apply TrimSpace_gap.
Qed.

(** X5: a text that, once its line ends are normalised, is [---], a line
    feed, meta data without any line that starts with [---], a line feed,
    [---], white space, and a body without white space around it, is
    stripped to that body. *)
Theorem strip_removes_frontmatter s meta gap body :
  strings.ReplaceAll s [CR; LF] [LF]
  = lit "---" ++ [LF] ++ meta ++ [LF] ++ lit "---" ++ gap ++ body ->
  strings.Index (LF :: meta) (LF :: lit "---") < 0 ->
  onlySpace gap ->
  trimmed body ->
  stripYAMLFrontmatter s = body.
Proof.
  intros Hs Hm Hg Hb. unfold stripYAMLFrontmatter. cbv zeta. rewrite Hs.
  rewrite HasPrefix_app. cbn [negb].
  assert (H3 : slice_from
                 (lit "---" ++ [LF] ++ meta ++ [LF] ++ lit "---" ++ gap ++ body) 3
               = (LF :: meta) ++ fence ++ (gap ++ body)).
  { unfold slice_from. change (Z.to_nat 3) with (length (lit "---")).
    rewrite drop_app_length. reflexivity. }
  rewrite H3, (Index_before_fence (LF :: meta) (gap ++ body) Hm).
  pose proof (len_nonneg (LF :: meta)) as Hl.
  destruct (len (LF :: meta) <? 0) eqn:E; [apply Z.ltb_lt in E; lia|].
  assert (H4 : slice_from
                 (lit "---" ++ [LF] ++ meta ++ [LF] ++ lit "---" ++ gap ++ body)
                 (3 + len (LF :: meta) + 4)
               = gap ++ body).
  { unfold slice_from.
    replace (lit "---" ++ [LF] ++ meta ++ [LF] ++ lit "---" ++ gap ++ body)
      with ((lit "---" ++ (LF :: meta) ++ fence) ++ gap ++ body)
      by (rewrite <- !app_assoc; reflexivity).
    replace (Z.to_nat (3 + len (LF :: meta) + 4))
      with (length (lit "---" ++ (LF :: meta) ++ fence))
      by (rewrite !length_app; unfold len; cbn [length lit list_ascii_of_string]; lia).
    apply drop_app_length. }
  rewrite H4. by apply strip_tail.
Qed.

(** X6: when a front-matter block is removed, what is returned neither
    starts nor ends with white space. *)
Theorem strip_block_trimmed s :
  hasFrontmatter (strings.ReplaceAll s [CR; LF] [LF]) = true ->
  trimmed (stripYAMLFrontmatter s).
Proof.
  unfold hasFrontmatter, stripYAMLFrontmatter. cbv zeta.
  intros H. apply andb_true_iff in H as [Hp Hi]. rewrite Hp. cbn [negb].
  apply Z.leb_le in Hi.
  destruct (_ <? 0) eqn:E; [apply Z.ltb_lt in E; lia|].
  apply TrimSpace_trimmed.
Qed.

End FrontmatterContent.

(** ** How the budget is spent *)

Section BudgetFacts.

Implicit Types loaded : list (list ascii * list ascii).
Implicit Types blocks : list (list ascii).

Lemma totalLen_nonneg blocks : 0 <= totalLen blocks.
Proof.
  induction blocks as [|b rest IH]; cbn [totalLen]; [done|].
  pose proof (len_nonneg b). lia.
Qed.

Lemma totalLen_app blocks blocks' :
  totalLen (blocks ++ blocks') = totalLen blocks + totalLen blocks'.
Proof. induction blocks as [|b rest IH]; cbn [app totalLen]; lia. Qed.

Lemma len_fullBlock (skill : list ascii * list ascii) :
  len (fullBlock skill) = len (snd skill) + tagOverhead (fst skill).
Proof. apply len_skillBlock. Qed.

Lemma budgetBlocks_fit loaded (remaining : Z) :
  totalLen (map fullBlock loaded) < remaining ->
  budgetBlocks loaded remaining = map fullBlock loaded.
Proof.
  revert remaining. induction loaded as [|[name body] rest IH];
    intros remaining H; [done|].
  cbn [map totalLen] in H. rewrite len_fullBlock in H. cbn [fst snd] in H.
  pose proof (totalLen_nonneg (map fullBlock rest)) as Hr.
  pose proof (len_nonneg body) as Hb.
  cbn [budgetBlocks map]. cbv zeta.
  rewrite (proj2 (Z.leb_gt _ _)) by lia.
  rewrite fitBody_whole by lia.
  rewrite (proj2 (Z.leb_gt _ _)) by lia.
  rewrite IH by lia. done.
Qed.

(** The blocks are whole blocks of the first skills, then at most one cut
    block; a cut block uses the budget up. *)
Lemma budgetBlocks_shape loaded (remaining : Z) :
  exists k tail,
    budgetBlocks loaded remaining = map fullBlock (take k loaded) ++ tail
    /\ (tail = []
        \/ exists name body cut,
             loaded !! k = Some (name, body)
             /\ tail = [skillBlock name cut]
             /\ cut `prefix_of` body
             /\ len cut < len body
             /\ totalLen (budgetBlocks loaded remaining) = remaining).
Proof.
  revert remaining. induction loaded as [|[name body] rest IH];
    intros remaining.
  { exists O, []. split; [done | by left]. }
  cbn [budgetBlocks]. cbv zeta.
  destruct (remaining - tagOverhead name <=? 0) eqn:E.
  { exists O, []. split; [done | by left]. }
  apply Z.leb_gt in E.
  destruct (Z_lt_le_dec (remaining - tagOverhead name) (len body)) as [Hcut|Hfit].
  - pose proof (fitBody_cut (remaining - tagOverhead name) body ltac:(lia)) as Hl.
    rewrite Hl. rewrite (proj2 (Z.leb_le _ _)) by lia.
    exists O, [skillBlock name (fitBody (remaining - tagOverhead name) body)].
    split; [done|]. right. eexists name, body, _.
    split; [done|]. split; [done|]. split; [apply fitBody_prefix|].
    split; [lia|]. cbn [totalLen]. rewrite len_skillBlock. lia.
  - rewrite fitBody_whole by done.
    destruct (remaining - tagOverhead name - len body <=? 0) eqn:E'.
    + exists 1%nat, []. split; [by rewrite app_nil_r | by left].
    + destruct (IH (remaining - tagOverhead name - len body))
        as (k & tail & Heq & Htail).
      exists (S k), tail. split.
      * cbn [take map app]. by rewrite Heq.
      * destruct Htail as [->|(n & b & cut & Hk & -> & Hp & Hlt & Htot)];
          [by left|].
        right. exists n, b, cut. split; [done|]. split; [done|].
        split; [done|]. split; [done|].
        cbn [totalLen]. rewrite len_skillBlock, Htot. lia.
Qed.

Lemma len_Join_blocks blocks (sep : list ascii) :
  blocks <> [] ->
  len (strings.Join blocks sep)
  = totalLen blocks + len sep * (len_list blocks - 1).
Proof.
  induction blocks as [|b rest IH]; intros Hne; [done|].
  destruct rest as [|b' rest].
  - cbn [strings.Join totalLen]. unfold len_list. cbn [length]. lia.
  - change (strings.Join (b :: b' :: rest) sep)
      with (b ++ sep ++ strings.Join (b' :: rest) sep).
    rewrite !len_app, IH by done. cbn [totalLen]. unfold len_list.
    cbn [length]. lia.
Qed.

Lemma wrapped_blocks_count blocks :
  Forall (fun block => exists name body, block = skillBlock name body) blocks ->
  25 * len_list blocks <= totalLen blocks.
Proof.
  induction 1 as [|b rest (name & body & ->) _ IH].
  - unfold len_list. cbn [length totalLen]. lia.
  - cbn [totalLen]. rewrite len_skillBlock.
    pose proof (tagOverhead_pos name). pose proof (len_nonneg body).
    unfold len_list in *. cbn [length]. lia.
Qed.

Lemma budgetBlocks_count loaded (remaining : Z) :
  0 <= remaining ->
  25 * len_list (budgetBlocks loaded remaining) <= remaining.
Proof.
  intros Hr. pose proof (budgetBlocks_total loaded remaining Hr).
  pose proof (wrapped_blocks_count _ (budgetBlocks_wrapped loaded remaining)).
  lia.
Qed.

End BudgetFacts.

(** X7: when the whole blocks of the loadable skills take less than the
    budget, [ResolveSkillContent] returns every one of them with its
    whole body, in the order requested, joined by blank lines. *)
Theorem all_skills_fit (sys : OS) (home : list ascii)
    (skills : list (list ascii)) (B : Z) :
  os_home sys = Some home ->
  totalLen (map fullBlock (omap (loadSkill sys home) skills)) < B ->
  fst (ResolveSkillContent sys skills B)
  = strings.Join (map fullBlock (omap (loadSkill sys home) skills)) [LF; LF]
  /\ fst (resolveSections sys skills B)
     = map fullBlock (omap (loadSkill sys home) skills).
Proof.
  intros Hh Hfit.
  pose proof (totalLen_nonneg (map fullBlock (omap (loadSkill sys home) skills))).
  assert (Hs : fst (resolveSections sys skills B)
               = map fullBlock (omap (loadSkill sys home) skills)).
  { rewrite resolveSections_blocks, Hh.
    rewrite (proj2 (Z.leb_gt _ _)) by lia. by apply budgetBlocks_fit. }
  split; [|done]. by rewrite ResolveSkillContent_join, Hs.
Qed.

(** X8: only the last block can be cut.  The blocks are the whole blocks
    of the first [k] loadable skills followed by nothing or by the block
    of the next one with a proper prefix of its body, and in the second
    case the blocks take the budget exactly. *)
Theorem only_last_block_is_cut (sys : OS) (home : list ascii)
    (skills : list (list ascii)) (B : Z) :
  os_home sys = Some home ->
  0 < B ->
  exists k tail,
    fst (resolveSections sys skills B)
    = map fullBlock (take k (omap (loadSkill sys home) skills)) ++ tail
    /\ (tail = []
        \/ exists name body cut,
             omap (loadSkill sys home) skills !! k = Some (name, body)
             /\ tail = [skillBlock name cut]
             /\ cut `prefix_of` body
             /\ len cut < len body
             /\ totalLen (fst (resolveSections sys skills B)) = B).
Proof.
  intros Hh HB. rewrite resolveSections_blocks, Hh.
  rewrite (proj2 (Z.leb_gt _ _)) by lia. apply budgetBlocks_shape.
Qed.

(** X9: the budget counts the blocks and not the blank lines between
    them.  With [B'] the budget in force (16000 when the argument is not
    positive) and [k] the number of blocks, the result is empty when
    [k = 0] and otherwise has the length of the blocks plus two bytes for
    each of the [k - 1] separators; the blocks take at most [B'] bytes,
    and at least 25 bytes each. *)
Theorem joined_length (sys : OS) (skills : list (list ascii)) (B : Z) :
  let B' := if B <=? 0 then defaultSkillBudget else B in
  let blocks := fst (resolveSections sys skills B) in
  let k := len_list blocks in
  len (fst (ResolveSkillContent sys skills B))
  = (if k =? 0 then 0 else totalLen blocks + 2 * (k - 1))
  /\ totalLen blocks <= B'
  /\ 25 * k <= B'.
Proof.
  intros B' blocks k. subst k blocks.
  assert (HB' : 0 <= B').
  { subst B'. unfold defaultSkillBudget.
    destruct (B <=? 0) eqn:E; [lia | apply Z.leb_gt in E; lia]. }
  rewrite ResolveSkillContent_join. split; [|split].
  - destruct (fst (resolveSections sys skills B)) as [|b rest] eqn:E; [done|].
    rewrite len_Join_blocks by done. unfold len_list, len. cbn [length].
    destruct (Z.of_nat (S (length rest)) =? 0) eqn:E0; [|lia].
    apply Z.eqb_eq in E0. lia.
  - rewrite resolveSections_blocks. destruct (os_home sys); [|done].
    by apply budgetBlocks_total.
  - rewrite resolveSections_blocks. destruct (os_home sys).
    + by apply budgetBlocks_count.
    + unfold len_list. cbn [length]. lia.
Qed.

(** ** Where skill files are looked for *)

Section SkillPaths.

Implicit Types name home : list ascii.
Implicit Types rs es : list (list ascii).

Local Abbreviation sep := filepath.Separator (only parsing).

Lemma name_char_elem name c :
  validSkillName name = true -> c ∈ name -> name_char c = true.
Proof.
  unfold validSkillName. destruct name as [|c0 name']; [done|].
  intros H Hc. rewrite forallb_forall in H. apply H.
  by apply list_elem_of_In.
Qed.

(** A valid skill name is a single, ordinary path element. *)
Lemma validSkillName_normal name :
  validSkillName name = true -> normalElem name.
Proof.
  intros Hv. split; [|split; [|split]].
  - intros ->. done.
  - intros Hin. by apply (name_char_elem _ _ Hv) in Hin.
  - intros ->. assert (H : name_char dot = true); [|done].
    apply (name_char_elem _ _ Hv), list_elem_of_here.
  - intros ->. assert (H : name_char dot = true); [|done].
    apply (name_char_elem _ _ Hv), list_elem_of_here.
Qed.

Lemma Join_app rs es :
  rs <> [] -> es <> [] ->
  strings.Join rs [sep] ++ sep :: strings.Join es [sep]
  = strings.Join (rs ++ es) [sep].
Proof.
  intros Hr He. induction rs as [|r rs IH]; [done|].
  destruct rs as [|r' rs].
  - destruct es as [|e es]; [done|]. reflexivity.
  - change (strings.Join (r :: r' :: rs) [sep])
      with (r ++ [sep] ++ strings.Join (r' :: rs) [sep]).
    change (strings.Join ((r :: r' :: rs) ++ es) [sep])
      with (r ++ [sep] ++ strings.Join ((r' :: rs) ++ es) [sep]).
    rewrite <- IH by done. by rewrite <- !app_assoc.
Qed.

(** Joining ordinary elements to a cleaned absolute path appends them. *)
Lemma Clean_rootedPath_app rs es :
  Forall normalElem rs -> Forall normalElem es -> es <> [] ->
  filepath.Clean (rootedPath rs ++ sep :: strings.Join es [sep])
  = rootedPath (rs ++ es).
Proof.
  intros Hr He Hne. destruct rs as [|r rs].
  - unfold filepath.Clean, rootedPath. cbn [strings.Join app].
    rewrite bool_decide_eq_false_2 by done.
    change (filepath.IsAbs (sep :: sep :: strings.Join es [sep])) with true.
    cbv iota. rewrite !split_sep_cons. cbn [fold_left].
    change (filepath.clean_elem true [] []) with (@nil (list ascii)).
    rewrite split_Join; [|by apply normalElem_no_sep|done].
    rewrite fold_clean_normal by done.
    by rewrite app_nil_r, reverse_involutive.
  - unfold rootedPath at 1. cbn [app].
    rewrite Join_app by done.
    apply Clean_rootedPath. by apply (Forall_app_2 _ (r :: rs) es).
Qed.

Lemma IsAbs_cons home : filepath.IsAbs home = true -> exists h, home = sep :: h.
Proof.
  unfold filepath.IsAbs. intros H. apply HasPrefix_prefix in H as [h ->].
  by exists h.
Qed.

(** Under an absolute home directory the two skill roots are cleaned
    absolute paths. *)
Lemma skillRoot_rooted home (a b : list ascii) :
  filepath.IsAbs home = true ->
  exists rs, Forall normalElem rs /\ filepath.Join [home; a; b] = rootedPath rs.
Proof.
  intros Hh. destruct (IsAbs_cons home Hh) as [h ->].
  cbn [filepath.Join]. rewrite bool_decide_eq_false_2 by done.
  apply Clean_rooted. reflexivity.
Qed.

Lemma normalElem_SKILL : normalElem (lit "SKILL.md").
Proof. repeat split; intros H; refute_by_computation H. Qed.

Lemma skillPath_rooted rs name :
  Forall normalElem rs -> validSkillName name = true ->
  skillPath (rootedPath rs) name = rootedPath (rs ++ [name; lit "SKILL.md"]).
Proof.
  intros Hr Hv. unfold skillPath. cbn [filepath.Join].
  rewrite bool_decide_eq_false_2 by done.
  change (strings.Join [rootedPath rs; name; lit "SKILL.md"] [sep])
    with (rootedPath rs ++ sep :: strings.Join [name; lit "SKILL.md"] [sep]).
  apply Clean_rootedPath_app; [done| |done].
  constructor; [by apply validSkillName_normal|].
  constructor; [apply normalElem_SKILL | constructor].
Qed.

Lemma skill_files_within home name :
  filepath.IsAbs home = true -> validSkillName name = true ->
  withinAny (codexSkillFile home name) (skillRoots home) = true
  /\ withinAny (claudeSkillFile home name) (skillRoots home) = true.
Proof.
  intros Hh Hv. unfold codexSkillFile, claudeSkillFile, skillRoots, withinAny.
  destruct (skillRoot_rooted home (lit ".codex") (lit "skills") Hh)
    as (cs & Hcs & ->).
  destruct (skillRoot_rooted home (lit ".claude") (lit "skills") Hh)
    as (ds & Hds & ->).
  rewrite !skillPath_rooted by done. cbn [existsb].
  assert (Hn : Forall normalElem [name; lit "SKILL.md"]).
  { constructor; [by apply validSkillName_normal|].
    constructor; [apply normalElem_SKILL | constructor]. }
  split.
  - rewrite (proj2 (isWithinDir_prefix (cs ++ _) cs ltac:(by apply Forall_app_2) Hcs));
      [done | by apply prefix_app_r].
  - rewrite (proj2 (isWithinDir_prefix (ds ++ _) ds ltac:(by apply Forall_app_2) Hds));
      [by rewrite orb_true_r | by apply prefix_app_r].
Qed.

(** X10: a valid skill name cannot leave the skill directories.  Under an
    absolute home directory each skill root is a cleaned absolute path,
    and the file looked for is that root followed by exactly two
    elements, the name and [SKILL.md]. *)
Theorem skill_file_is_root_name_SKILL home name :
  filepath.IsAbs home = true ->
  validSkillName name = true ->
  (exists rs,
     Forall normalElem rs
     /\ filepath.Join [home; lit ".codex"; lit "skills"] = rootedPath rs
     /\ codexSkillFile home name = rootedPath (rs ++ [name; lit "SKILL.md"]))
  /\ (exists rs,
        Forall normalElem rs
        /\ filepath.Join [home; lit ".claude"; lit "skills"] = rootedPath rs
        /\ claudeSkillFile home name
           = rootedPath (rs ++ [name; lit "SKILL.md"])).
Proof.
  intros Hh Hv. unfold codexSkillFile, claudeSkillFile. split.
  - destruct (skillRoot_rooted home (lit ".codex") (lit "skills") Hh)
      as (rs & Hrs & Heq).
    exists rs. rewrite Heq. by rewrite skillPath_rooted.
  - destruct (skillRoot_rooted home (lit ".claude") (lit "skills") Hh)
      as (rs & Hrs & Heq).
    exists rs. rewrite Heq. by rewrite skillPath_rooted.
Qed.

(** X11: under an absolute home directory [ResolveSkillContent] touches
    no file outside [~/.codex/skills] and [~/.claude/skills], whatever
    the requested names are: after the home directory is asked for,
    every call is an [os.Stat] or an [os.ReadFile] on a path within one
    of the two roots. *)
Theorem resolve_stays_in_skill_roots (sys : OS) home
    (skills : list (list ascii)) (B : Z) (c : Call) :
  os_home sys = Some home ->
  filepath.IsAbs home = true ->
  c ∈ snd (ResolveSkillContent sys skills B) ->
  c = CallUserHomeDir
  \/ exists p, (c = CallStat p \/ c = CallReadFile p)
               /\ withinAny p (skillRoots home) = true.
Proof.
  intros Hh Habs. unfold ResolveSkillContent, resolveSections, os.UserHomeDir.
  rewrite snd_bind, bind_call. cbn [snd ret]. rewrite app_nil_r, Hh.
  intros Hc. apply elem_of_cons in Hc as [->|Hc]; [by left|]. right.
  unfold resolveLoop in Hc. rewrite snd_bind in Hc. cbn [snd ret] in Hc.
  rewrite app_nil_r in Hc.
  apply forRange_calls in Hc as (name & _ & Hv & Hc).
  destruct (skill_files_within home _ Habs Hv) as [Hx Hl].
  unfold skillCalls in Hc.
  repeat (apply elem_of_cons in Hc as [->|Hc]; [eexists; split; eauto|]).
  by apply elem_of_nil in Hc.
Qed.

End SkillPaths.

(** ** What is detected *)

Section DetectExact.

Variable sys : OS.
Variable home : list ascii.

Implicit Types st : detectState.

Lemma installed_found (skill : list ascii) :
  installed sys home skill <-> fst (findSkillFile sys home skill) <> [].
Proof.
  split; [|apply findSkillFile_found].
  rewrite findSkillFile_eq. unfold installed.
  destruct (os_stat sys (codexSkillFile home skill)) eqn:Hx.
  { intros _. apply skillPath_nonempty. }
  destruct (os_stat sys (claudeSkillFile home skill)) eqn:Hl.
  { intros _. apply skillPath_nonempty. }
  intros [H|H]; done.
Qed.

Lemma seenBefore_insert (seen : gmap (list ascii) bool) (skill s : list ascii) :
  seenBefore (<[skill := true]> seen) s = true
  <-> s = skill \/ seenBefore seen s = true.
Proof.
  unfold seenBefore. destruct (decide (skill = s)) as [->|Hne].
  - rewrite lookup_insert_eq. cbn. split; [by left | done].
  - rewrite lookup_insert_ne by done. split; [by right|].
    intros [->|H]; done.
Qed.

Lemma detectSkills_post (skills : list (list ascii)) st :
  (forall s, seenBefore (snd st) s = true <-> s ∈ fst st) ->
  detect_post sys home True skills st (fst (detectSkills sys home skills st)).
Proof.
  revert st. induction skills as [|skill rest IH]; intros st Hseen;
    cbn [detectSkills].
  { split; [done|]. split.
    - intros s. split; [by left|]. intros [H|(_ & H & _)]; [done|].
      by apply elem_of_nil in H.
    - exists []. by rewrite app_nil_r. }
  destruct (seenBefore (snd st) skill) eqn:Hs.
  - destruct (IH st Hseen) as (H1 & H2 & extra & H3 & H4).
    split; [done|]. split.
    + intros s. rewrite H2. split.
      * intros [H|(_ & H & Hi)]; [by left|]. right.
        split; [done|]. split; [by apply list_elem_of_further | done].
      * intros [H|(_ & H & Hi)]; [by left|].
        apply elem_of_cons in H as [->|H]; [|by right].
        left. by apply Hseen.
    + exists extra. split; [done | by apply sublist_cons].
  - rewrite fst_bind.
    destruct (bool_decide (fst (findSkillFile sys home skill) = [])) eqn:E;
      cbn [negb].
    + apply bool_decide_eq_true in E.
      destruct (IH st Hseen) as (H1 & H2 & extra & H3 & H4).
      split; [done|]. split.
      * intros s. rewrite H2. split.
        -- intros [H|(_ & H & Hi)]; [by left|]. right.
           split; [done|]. split; [by apply list_elem_of_further | done].
        -- intros [H|(_ & H & Hi)]; [by left|].
           apply elem_of_cons in H as [->|H]; [|by right].
           by apply installed_found in Hi.
      * exists extra. split; [done | by apply sublist_cons].
    + apply bool_decide_eq_false in E. apply installed_found in E.
      set (st' := (fst st ++ [skill], <[skill := true]> (snd st))).
      assert (Hseen' : forall s, seenBefore (snd st') s = true <-> s ∈ fst st').
      { intros s. subst st'. cbn [fst snd].
        rewrite seenBefore_insert, elem_of_app, list_elem_of_singleton, Hseen.
        tauto. }
      destruct (IH st' Hseen') as (H1 & H2 & extra & H3 & H4).
      split; [done|]. split.
      * intros s. rewrite H2. subst st'. cbn [fst].
        rewrite elem_of_app, list_elem_of_singleton, elem_of_cons. split.
        -- intros [[H| ->]|(_ & H & Hi)]; [by left|right|right]; tauto.
        -- intros [H|(_ & [->|H] & Hi)]; tauto.
      * exists (skill :: extra). subst st'. cbn [fst] in H3. split.
        -- rewrite H3. by rewrite <- app_assoc.
        -- by apply sublist_skip.
Qed.

Lemma detectFiles_post (workDir : list ascii) (files skills : list (list ascii)) st :
  (forall s, seenBefore (snd st) s = true <-> s ∈ fst st) ->
  detect_post sys home
    (exists f, f ∈ files /\ os_stat sys (filepath.Join [workDir; f]) = true)
    skills st (fst (detectFiles sys home workDir files skills st)).
Proof.
  intros Hseen. induction files as [|f rest IH]; cbn [detectFiles].
  { split; [done|]. split.
    - intros s. split; [by left|]. intros [H|([f [Hf _]] & _)]; [done|].
      by apply elem_of_nil in Hf.
    - exists []. split; [by rewrite app_nil_r | apply sublist_nil_l]. }
  unfold os.Stat. rewrite bind_call. cbn [fst].
  destruct (os_stat sys (filepath.Join [workDir; f])) eqn:Hf.
  - destruct (detectSkills_post skills st Hseen) as (H1 & H2 & H3).
    split; [done|]. split; [|done].
    intros s. rewrite H2. split.
    + intros [H|(_ & H)]; [by left|]. right. split; [|done].
      exists f. split; [apply list_elem_of_here | done].
    + intros [H|(_ & H)]; [by left | by right].
  - destruct IH as (H1 & H2 & H3). split; [done|]. split; [|done].
    intros s. rewrite H2. split.
    + intros [H|([g [Hg Hs]] & H)]; [by left|]. right. split; [|done].
      exists g. split; [by apply list_elem_of_further | done].
    + intros [H|([g [Hg Hs]] & H)]; [by left|]. right. split; [|done].
      apply elem_of_cons in Hg as [->|Hg]; [congruence|]. by exists g.
Qed.

Lemma detectEntries_post (workDir : list ascii) (table : list techEntry) st :
  (forall s, seenBefore (snd st) s = true <-> s ∈ fst st) ->
  let st' := fst (detectEntries sys home workDir table st) in
  (forall s, seenBefore (snd st') s = true <-> s ∈ fst st')
  /\ (forall s, s ∈ fst st' <->
        s ∈ fst st
        \/ exists entry, entry ∈ table /\ fingerprint sys workDir entry
                         /\ s ∈ Skills entry /\ installed sys home s)
  /\ exists extra, fst st' = fst st ++ extra
                   /\ extra `sublist_of` tableSkills table.
Proof.
  revert st. induction table as [|entry rest IH]; intros st Hseen;
    cbn [detectEntries].
  { cbn [ret fst]. split; [done|]. split.
    - intros s. split; [by left|]. intros [H|(e & He & _)]; [done|].
      by apply elem_of_nil in He.
    - exists []. split; [by rewrite app_nil_r | apply sublist_nil_l]. }
  rewrite fst_bind.
  destruct (detectFiles_post workDir (Files entry) (Skills entry) st Hseen)
    as (H1 & H2 & extra1 & H3 & H4).
  destruct (IH _ H1) as (J1 & J2 & extra2 & J3 & J4).
  split; [done|]. split.
  - intros s. rewrite J2, H2. split.
    + intros [[H|(Hf & Hs & Hi)]|(e & He & H)].
      * by left.
      * right. exists entry. split; [apply list_elem_of_here | done].
      * right. exists e. split; [by apply list_elem_of_further | done].
    + intros [H|(e & He & Hf & Hs & Hi)]; [by left; left|].
      apply elem_of_cons in He as [->|He].
      * left. right. done.
      * right. by exists e.
  - exists (extra1 ++ extra2). split.
    + by rewrite J3, H3, <- app_assoc.
    + unfold tableSkills. cbn [map concat]. by apply sublist_app.
Qed.

End DetectExact.

Lemma DetectProjectSkills_post (sys : OS) (workDir home : list ascii) :
  os_home sys = Some home ->
  (forall s, s ∈ fst (DetectProjectSkills sys workDir) <->
     exists entry, entry ∈ techSkillMap /\ fingerprint sys workDir entry
                   /\ s ∈ Skills entry /\ installed sys home s)
  /\ fst (DetectProjectSkills sys workDir) `sublist_of` tableSkills techSkillMap.
Proof.
  intros Hh. unfold DetectProjectSkills, os.UserHomeDir.
  rewrite bind_call, Hh. cbn [fst]. rewrite fst_bind. cbn [ret fst].
  destruct (detectEntries_post sys home workDir techSkillMap ([], ∅))
    as (_ & H2 & extra & H3 & H4).
  { intros s. cbn [fst snd]. unfold seenBefore. rewrite lookup_empty. cbn.
    split; [done|]. intros H. by apply elem_of_nil in H. }
  split.
  - intros s. rewrite H2. cbn [fst]. split.
    + intros [H|H]; [by apply elem_of_nil in H | done].
    + by right.
  - rewrite H3. done.
Qed.

(** X12: [DetectProjectSkills] returns exactly the skills of the table
    that are installed and whose entry has one of its fingerprint files
    in the working directory. *)
Theorem detected_iff (sys : OS) (workDir home name : list ascii) :
  os_home sys = Some home ->
  name ∈ fst (DetectProjectSkills sys workDir)
  <-> exists entry,
        entry ∈ techSkillMap
        /\ fingerprint sys workDir entry
        /\ name ∈ Skills entry
        /\ installed sys home name.
Proof. intros Hh. by apply DetectProjectSkills_post. Qed.

(** X13: the detected skills come in the order of the table: the result
    is a sublist of the table's six names, so it never holds more than
    six. *)
Theorem detected_in_table_order (sys : OS) (workDir : list ascii) :
  fst (DetectProjectSkills sys workDir)
    `sublist_of` [ lit "golang-base-practices"; lit "rust-best-practices";
                   lit "python-best-practices";
                   lit "vercel-react-best-practices"; lit "frontend-design";
                   lit "vue-web-app" ]
  /\ (length (fst (DetectProjectSkills sys workDir)) <= 6)%nat.
Proof.
  assert (H : fst (DetectProjectSkills sys workDir)
                `sublist_of` tableSkills techSkillMap).
  { destruct (os_home sys) as [home|] eqn:Hh.
    - by apply (DetectProjectSkills_post sys workDir home).
    - pose proof (DetectProjectSkills_inv sys workDir) as Hi.
      rewrite Hh in Hi. rewrite Hi. apply sublist_nil_l. }
  split; [exact H|]. apply sublist_length in H. exact H.
Qed.

(** X14: a detected skill passes the resolver's checks on names and
    files: its name is valid as it stands and its [SKILL.md] is found, so
    [ResolveSkillContent] loads it unless the file cannot be read or is
    empty. *)
Theorem detected_skill_is_loadable (sys : OS) (workDir home name : list ascii) :
  os_home sys = Some home ->
  name ∈ fst (DetectProjectSkills sys workDir) ->
  validSkillName name = true
  /\ fst (findSkillFile sys home name) <> []
  /\ loadSkill sys home name =
       match os_readFile sys (fst (findSkillFile sys home name)) with
       | Some data =>
           if len data =? 0 then None
           else Some (name, stripYAMLFrontmatter (strings.TrimSpace data))
       | None => None
       end.
Proof.
  intros Hh Hn.
  destruct (DetectProjectSkills_post sys workDir home Hh) as [Hiff Hsub].
  assert (Hi : installed sys home name).
  { apply Hiff in Hn as (e & _ & _ & _ & Hi). exact Hi. }
  assert (Ht : name ∈ tableSkills techSkillMap).
  { eapply sublist_subseteq; [exact Hsub | exact Hn]. }
  assert (Hv : strings.TrimSpace name = name /\ validSkillName name = true).
  { vm_compute in Ht.
    repeat (apply elem_of_cons in Ht as [->|Ht];
            [split; vm_compute; reflexivity|]).
    by apply elem_of_nil in Ht. }
  destruct Hv as [Htrim Hv]. apply installed_found in Hi.
  split; [done|]. split; [done|].
  unfold loadSkill. cbv zeta. rewrite Htrim, Hv.
  by rewrite bool_decide_eq_false_2.
Qed.

(** ** Longer requests, and what detection calls *)

Lemma budgetBlocks_app_prefix (loaded more : list (list ascii * list ascii))
    (remaining : Z) :
  budgetBlocks loaded remaining `prefix_of` budgetBlocks (loaded ++ more) remaining.
Proof.
  revert remaining. induction loaded as [|[name body] rest IH];
    intros remaining; [apply prefix_nil|].
  cbn [app budgetBlocks]. cbv zeta.
  destruct (_ <=? 0); [done|]. apply prefix_cons.
  destruct (_ <=? 0); [done | apply IH].
Qed.

(** X15: names added at the end of a request leave the earlier blocks as
    they are: the blocks for [skills] are a prefix of the blocks for
    [skills ++ more]. *)
Theorem longer_request_extends_blocks (sys : OS)
    (skills more : list (list ascii)) (B : Z) :
  fst (resolveSections sys skills B)
    `prefix_of` fst (resolveSections sys (skills ++ more) B).
Proof.
  rewrite !resolveSections_blocks. destruct (os_home sys) as [home|]; [|done].
  rewrite omap_app. apply budgetBlocks_app_prefix.
Qed.

Section DetectCalls.

Variable sys : OS.
Variable home : list ascii.

Local Abbreviation statOnly :=
  (Forall (fun c => exists p, c = CallStat p)) (only parsing).

Lemma statOnly_findSkillFile (skill : list ascii) :
  statOnly (snd (findSkillFile sys home skill)).
Proof.
  rewrite findSkillFile_eq.
  destruct (os_stat sys _); [|destruct (os_stat sys _)]; cbn [snd];
    repeat constructor; by eexists.
Qed.

Lemma statOnly_detectSkills (skills : list (list ascii)) (st : detectState) :
  statOnly (snd (detectSkills sys home skills st)).
Proof.
  revert st. induction skills as [|skill rest IH]; intros st;
    cbn [detectSkills]; [constructor|].
  destruct (seenBefore _ _); [apply IH|]. rewrite snd_bind.
  apply Forall_app. split; [apply statOnly_findSkillFile|].
  destruct (negb _); apply IH.
Qed.

Lemma statOnly_detectFiles (workDir : list ascii)
    (files skills : list (list ascii)) (st : detectState) :
  statOnly (snd (detectFiles sys home workDir files skills st)).
Proof.
  induction files as [|f rest IH]; cbn [detectFiles]; [constructor|].
  unfold os.Stat. rewrite bind_call. cbn [snd].
  constructor; [by eexists|].
  destruct (os_stat sys _); [apply statOnly_detectSkills | apply IH].
Qed.

Lemma statOnly_detectEntries (workDir : list ascii) (table : list techEntry)
    (st : detectState) :
  statOnly (snd (detectEntries sys home workDir table st)).
Proof.
  revert st. induction table as [|entry rest IH]; intros st;
    cbn [detectEntries]; [constructor|].
  rewrite snd_bind. apply Forall_app.
  split; [apply statOnly_detectFiles | apply IH].
Qed.

End DetectCalls.

(** X16: detection only checks that files exist: [DetectProjectSkills]
    asks for the home directory and then makes [os.Stat] calls, and never
    reads a file. *)
Theorem detection_only_stats (sys : OS) (workDir : list ascii) :
  exists calls,
    snd (DetectProjectSkills sys workDir) = CallUserHomeDir :: calls
    /\ Forall (fun c => exists p, c = CallStat p) calls.
Proof.
  unfold DetectProjectSkills, os.UserHomeDir. rewrite bind_call. cbn [snd].
  eexists. split; [reflexivity|].
  destruct (os_home sys) as [home|]; [|constructor].
  rewrite snd_bind. cbn [ret snd]. rewrite app_nil_r.
  apply statOnly_detectEntries.
Qed.

(** ** Concrete runs of the further properties *)

Lemma unrestricted_read_witness :
  fst (ReadAgentPromptFile demoOS (lit "~/prompt.md") true)
  = match os_readFile demoOS (lit "/home/u/prompt.md") with
    | Some data => Ok (strings.TrimRight data [CR; LF])
    | None => Err ErrReadFile
    end
  /\ exists before,
       snd (ReadAgentPromptFile demoOS (lit "~/prompt.md") true)
       = before ++ [CallReadFile (lit "/home/u/prompt.md")]
       /\ Forall (fun c => isEnv c = true) before.
Proof.
  apply (unrestricted_read demoOS (lit "~/prompt.md") (lit "/home/u/prompt.md")).
  - vm_compute. discriminate.
  - vm_compute. reflexivity.
Defined.

Lemma restricted_needs_home_witness :
  (exists e, fst (ReadAgentPromptFile homelessOS (lit "/work/go.mod") false)
             = Err e)
  /\ noRead (snd (ReadAgentPromptFile homelessOS (lit "/work/go.mod") false)).
Proof.
  apply (restricted_needs_home homelessOS (lit "/work/go.mod")).
  - vm_compute. discriminate.
  - reflexivity.
Defined.

Lemma restricted_read_Ok_witness :
  exists home absPath data,
    os_home demoOS = Some home
    /\ promptAbsPath demoOS (lit "~/.claude/prompt.md") = Ok absPath
    /\ withinAny absPath (promptAllowedDirs demoOS home) = true
    /\ escapesBySymlink demoOS absPath (promptAllowedDirs demoOS home) = false
    /\ os_readFile demoOS absPath = Some data
    /\ lit "OK" = strings.TrimRight data [CR; LF].
Proof.
  apply (restricted_read_Ok demoOS (lit "~/.claude/prompt.md") (lit "OK")).
  - vm_compute. discriminate.
  - vm_compute. reflexivity.
Defined.

Lemma normalElem_computed (e : list ascii) :
  bool_decide (e <> []) && bool_decide (filepath.Separator ∉ e)
  && bool_decide (e <> [dot]) && bool_decide (e <> filepath.dotdot) = true ->
  normalElem e.
Proof.
  rewrite !andb_true_iff, !bool_decide_eq_true. intros [[[? ?] ?] ?].
  by repeat split.
Defined.

Lemma withinAny_prefix_witness :
  withinAny
    (rootedPath [lit "home"; lit "u"; lit ".claude"; lit "prompt.md"])
    (map rootedPath
       [ [lit "home"; lit "u"; lit ".claude"];
         [lit "home"; lit "u"; lit ".codex"] ]) = true.
Proof.
  apply withinAny_prefix.
  - repeat constructor; apply normalElem_computed; vm_compute; reflexivity.
  - repeat constructor; apply normalElem_computed; vm_compute; reflexivity.
  - exists [lit "home"; lit "u"; lit ".claude"].
    split; [apply list_elem_of_here|]. by exists [lit "prompt.md"].
Defined.

Lemma strip_removes_frontmatter_witness :
  stripYAMLFrontmatter
    (lit "---" ++ [LF] ++ lit "name: test" ++ [LF] ++ lit "---" ++ [LF; LF]
       ++ lit "# Body")
  = lit "# Body".
Proof.
  apply (strip_removes_frontmatter _ (lit "name: test") [LF; LF] (lit "# Body")).
  - vm_compute. reflexivity.
  - vm_compute. reflexivity.
  - change [LF; LF] with ([LF] ++ [LF] ++ []).
    repeat (apply onlySpace_app;
            [apply list_elem_of_further, list_elem_of_here|]).
    apply onlySpace_nil.
  - split; vm_compute; reflexivity.
Defined.

Lemma strip_block_trimmed_witness :
  trimmed
    (stripYAMLFrontmatter
       (lit "---" ++ [LF] ++ lit "name: test" ++ [LF] ++ lit "---" ++ [LF; LF]
          ++ lit "# Body" ++ [LF])).
Proof. apply strip_block_trimmed. vm_compute. reflexivity. Defined.

Lemma all_skills_fit_witness :
  fst (ResolveSkillContent skillsOS
         [lit "dup-skill"; lit "../bad"; lit "big-skill"] 16000)
  = strings.Join
      (map fullBlock
         (omap (loadSkill skillsOS (lit "/home/u"))
            [lit "dup-skill"; lit "../bad"; lit "big-skill"])) [LF; LF]
  /\ fst (resolveSections skillsOS
            [lit "dup-skill"; lit "../bad"; lit "big-skill"] 16000)
     = map fullBlock
         (omap (loadSkill skillsOS (lit "/home/u"))
            [lit "dup-skill"; lit "../bad"; lit "big-skill"]).
Proof.
  apply all_skills_fit.
  - reflexivity.
  - vm_compute. reflexivity.
Defined.

Lemma only_last_block_is_cut_witness :
  exists k tail,
    fst (resolveSections skillsOS [lit "big-skill"] 200)
    = map fullBlock
        (take k (omap (loadSkill skillsOS (lit "/home/u")) [lit "big-skill"]))
      ++ tail
    /\ (tail = []
        \/ exists name body cut,
             omap (loadSkill skillsOS (lit "/home/u")) [lit "big-skill"] !! k
             = Some (name, body)
             /\ tail = [skillBlock name cut]
             /\ cut `prefix_of` body
             /\ len cut < len body
             /\ totalLen (fst (resolveSections skillsOS [lit "big-skill"] 200))
                = 200).
Proof. apply only_last_block_is_cut; [reflexivity | lia]. Defined.

Lemma skill_file_is_root_name_SKILL_witness :
  (exists rs,
     Forall normalElem rs
     /\ filepath.Join [lit "/home/u"; lit ".codex"; lit "skills"] = rootedPath rs
     /\ codexSkillFile (lit "/home/u") (lit "dup-skill")
        = rootedPath (rs ++ [lit "dup-skill"; lit "SKILL.md"]))
  /\ (exists rs,
        Forall normalElem rs
        /\ filepath.Join [lit "/home/u"; lit ".claude"; lit "skills"]
           = rootedPath rs
        /\ claudeSkillFile (lit "/home/u") (lit "dup-skill")
           = rootedPath (rs ++ [lit "dup-skill"; lit "SKILL.md"])).
Proof.
  apply skill_file_is_root_name_SKILL; vm_compute; reflexivity.
Defined.

Lemma resolve_stays_in_skill_roots_witness :
  CallReadFile (lit "/home/u/.codex/skills/dup-skill/SKILL.md") = CallUserHomeDir
  \/ exists p,
       (CallReadFile (lit "/home/u/.codex/skills/dup-skill/SKILL.md")
          = CallStat p
        \/ CallReadFile (lit "/home/u/.codex/skills/dup-skill/SKILL.md")
           = CallReadFile p)
       /\ withinAny p (skillRoots (lit "/home/u")) = true.
Proof.
  apply (resolve_stays_in_skill_roots skillsOS (lit "/home/u")
           [lit " dup-skill "] 0).
  - reflexivity.
  - vm_compute. reflexivity.
  - vm_compute. do 2 apply list_elem_of_further. apply list_elem_of_here.
Defined.

Lemma detected_iff_witness :
  exists entry,
    entry ∈ techSkillMap
    /\ fingerprint skillsOS (lit "/work") entry
    /\ lit "frontend-design" ∈ Skills entry
    /\ installed skillsOS (lit "/home/u") (lit "frontend-design").
Proof.
  apply (detected_iff skillsOS (lit "/work") (lit "/home/u")).
  - reflexivity.
  - vm_compute. apply list_elem_of_further, list_elem_of_here.
Defined.

Lemma detected_skill_is_loadable_witness :
  validSkillName (lit "frontend-design") = true
  /\ fst (findSkillFile skillsOS (lit "/home/u") (lit "frontend-design")) <> []
  /\ loadSkill skillsOS (lit "/home/u") (lit "frontend-design") =
       match os_readFile skillsOS
               (fst (findSkillFile skillsOS (lit "/home/u")
                       (lit "frontend-design"))) with
       | Some data =>
           if len data =? 0 then None
           else Some (lit "frontend-design",
                      stripYAMLFrontmatter (strings.TrimSpace data))
       | None => None
       end.
Proof.
  apply (detected_skill_is_loadable skillsOS (lit "/work")).
  - reflexivity.
  - vm_compute. apply list_elem_of_further, list_elem_of_here.
Defined.
